(** * HIVE: a shallow embedding of the simulation engine

    The development follows the Python sources module by module:
    - [vehicle]          : hive/model/vehicle/vehicle.py
    - [step_simulation]  : hive/state/update/step_simulation.py
    - [reporter]         : hive/reporting/reporter.py
    - [charging_fleet_manager] :
        hive/dispatcher/instruction_generator/charging_fleet_manager.py
    - [dispatcher]       : hive/dispatcher.py

    Python values are embedded as follows.  Integers are [Z]; floats are
    kept abstract (a number type with its operations) or taken as [Q];
    [str] identifiers are [string]; an [immutables.Map] whose iteration
    order is irrelevant is a [gmap], one whose [keys()] order is observed
    is an association list in iteration order; [None] is [None]; a raised
    exception is an explicit error value. *)

From Stdlib Require Import ZArith QArith Qabs List Bool Lia.
From Stdlib Require Import Strings.String Strings.Ascii.
From Stdlib Require Import Sorting.Sorted Sorting.Permutation.
From stdpp Require Import base option list gmap strings.

Local Open Scope Z_scope.
Local Open Scope list_scope.

(** ** hive/model/vehicle/vehicle.py *)

Module vehicle.

(** Modelled from the spec: the enum [VehicleState] (module
    hive.model.vehicle.vehiclestate) is not among the sources.  Its members
    are the ten states of the table in section 4.2; the names are the ones
    the sources use ([VehicleState.IDLE], [VehicleState.OUT_OF_SERVICE],
    ...). *)
Inductive VehicleState : Type :=
| IDLE
| REPOSITIONING
| DISPATCH_TRIP
| SERVICING_TRIP
| DISPATCH_STATION
| DISPATCH_BASE
| CHARGING_STATION
| CHARGING_BASE
| RESERVE_BASE
| OUT_OF_SERVICE.

#[global] Instance VehicleState_eq_dec : EqDecision VehicleState.
Proof. solve_decision. Defined.

(** Modelled from the spec: [VehicleStateCategory] and its table
    [from_vehicle_state] are missing as well.  The source only names the
    member [CHARGE]; section 4.2 calls ChargingStation and ChargingBase the
    charging states, the states that carry a route are the moving ones, and
    the remaining ones do nothing. *)
Inductive VehicleStateCategory : Type :=
| DO_NOTHING
| CHARGE
| MOVE.

#[global] Instance VehicleStateCategory_eq_dec : EqDecision VehicleStateCategory.
Proof. solve_decision. Defined.

Definition from_vehicle_state (s : VehicleState) : VehicleStateCategory :=
  match s with
  | CHARGING_STATION | CHARGING_BASE => CHARGE
  | REPOSITIONING | DISPATCH_TRIP | SERVICING_TRIP
  | DISPATCH_STATION | DISPATCH_BASE => MOVE
  | IDLE | RESERVE_BASE | OUT_OF_SERVICE => DO_NOTHING
  end.

Section Vehicle.

(** Classes the vehicle refers to that are defined elsewhere. *)
Variables (EnergySource Link Passenger Charger : Type).

(** [class Vehicle(NamedTuple)]; the identifiers are [str], the currency
    and distance accumulators are Python floats, taken as rationals (no
    claim computes with them). *)
Record Vehicle : Type := mkVehicle {
  id : string;
  powertrain_id : string;
  powercurve_id : string;
  energy_source : EnergySource;
  link : Link;
  operating_cost_km : Q;
  route : list Link;
  vehicle_state : VehicleState;
  passengers : gmap string Passenger;
  charger_intent : option Charger;
  balance : Q;
  idle_time_seconds : Z;
  distance_traveled_km : Q
}.

(** [self._replace(vehicle_state=...)] and the other single field updates. *)
Definition modify_state (v : Vehicle) (s : VehicleState) : Vehicle :=
  mkVehicle (id v) (powertrain_id v) (powercurve_id v) (energy_source v)
    (link v) (operating_cost_km v) (route v) s (passengers v)
    (charger_intent v) (balance v) (idle_time_seconds v)
    (distance_traveled_km v).

Definition assign_route (v : Vehicle) (r : list Link) : Vehicle :=
  mkVehicle (id v) (powertrain_id v) (powercurve_id v) (energy_source v)
    (link v) (operating_cost_km v) r (vehicle_state v) (passengers v)
    (charger_intent v) (balance v) (idle_time_seconds v)
    (distance_traveled_km v).

Definition set_charge_intent (v : Vehicle) (c : Charger) : Vehicle :=
  mkVehicle (id v) (powertrain_id v) (powercurve_id v) (energy_source v)
    (link v) (operating_cost_km v) (route v) (vehicle_state v) (passengers v)
    (Some c) (balance v) (idle_time_seconds v) (distance_traveled_km v).

Definition _reset_idle_stats (v : Vehicle) : Vehicle :=
  mkVehicle (id v) (powertrain_id v) (powercurve_id v) (energy_source v)
    (link v) (operating_cost_km v) (route v) (vehicle_state v) (passengers v)
    (charger_intent v) (balance v) 0 (distance_traveled_km v).

Definition _reset_charge_intent (v : Vehicle) : Vehicle :=
  mkVehicle (id v) (powertrain_id v) (powercurve_id v) (energy_source v)
    (link v) (operating_cost_km v) (route v) (vehicle_state v) (passengers v)
    None (balance v) (idle_time_seconds v) (distance_traveled_km v).

(** [len(self.passengers) > 0] *)
Definition has_passengers (v : Vehicle) : bool :=
  bool_decide (0 < size (passengers v))%nat.

(** [len(self.route) != 0] *)
Definition has_route (v : Vehicle) : bool :=
  negb (Nat.eqb (List.length (route v)) 0).

(** [can_transition].  The first test, [VehicleState.is_valid], raises on a
    value that is no member of the enum; the argument type leaves no such
    value. *)
Definition can_transition (v : Vehicle) (s : VehicleState) : bool :=
  if decide (vehicle_state v = s) then false
  else if decide (vehicle_state v = OUT_OF_SERVICE) then false
  else if has_passengers v then false
  else true.

(** [transition]: [None] when the transition is not possible. *)
Definition transition (v : Vehicle) (s : VehicleState) : option Vehicle :=
  let previous_vehicle_state := vehicle_state v in
  if decide (previous_vehicle_state = s) then Some v
  else if can_transition v s then
    let transitioned_vehicle := modify_state v s in
    if decide (s = OUT_OF_SERVICE) then
      Some (assign_route transitioned_vehicle [])
    else if decide (previous_vehicle_state = IDLE) then
      Some (_reset_idle_stats transitioned_vehicle)
    else if bool_decide (from_vehicle_state previous_vehicle_state = CHARGE)
            && bool_decide (from_vehicle_state s <> CHARGE) then
      Some (_reset_charge_intent transitioned_vehicle)
    else if bool_decide (previous_vehicle_state = DISPATCH_STATION)
            && bool_decide (from_vehicle_state s <> CHARGE) then
      Some (_reset_charge_intent transitioned_vehicle)
    else Some transitioned_vehicle
  else None.

End Vehicle.

Arguments mkVehicle {_ _ _ _}.
Arguments id {_ _ _ _}.
Arguments powertrain_id {_ _ _ _}.
Arguments powercurve_id {_ _ _ _}.
Arguments energy_source {_ _ _ _}.
Arguments link {_ _ _ _}.
Arguments operating_cost_km {_ _ _ _}.
Arguments route {_ _ _ _}.
Arguments vehicle_state {_ _ _ _}.
Arguments passengers {_ _ _ _}.
Arguments charger_intent {_ _ _ _}.
Arguments balance {_ _ _ _}.
Arguments idle_time_seconds {_ _ _ _}.
Arguments distance_traveled_km {_ _ _ _}.
Arguments modify_state {_ _ _ _}.
Arguments assign_route {_ _ _ _}.
Arguments set_charge_intent {_ _ _ _}.
Arguments _reset_idle_stats {_ _ _ _}.
Arguments _reset_charge_intent {_ _ _ _}.
Arguments has_passengers {_ _ _ _}.
Arguments has_route {_ _ _ _}.
Arguments can_transition {_ _ _ _}.
Arguments transition {_ _ _ _}.

(** Sample vehicles, used to run the definitions: links are geoid strings,
    passengers are counted, chargers are named. *)
Definition sample (s : VehicleState) (r : list string)
    (p : gmap string nat) (c : option string) (idle : Z)
  : Vehicle unit string nat string :=
  mkVehicle "v001" "leaf" "leaf" tt "8f268cdac30e2d3" (1 # 2) r s p c 0 idle 0.

End vehicle.

(** ** hive/state/update/step_simulation.py *)

Module step_simulation.

(** [VehicleId] is [str]; Python orders strings by code point, which is
    the order of [String.leb]. *)
Fixpoint sorted_ids (vids : list string) : bool :=
  match vids with
  | [] => true
  | a :: rest =>
      match rest with
      | [] => true
      | b :: _ => String.leb a b && sorted_ids rest
      end
  end.

Section SimulationState.

(** Entity classes and collaborators defined in other modules. *)
Variables (Vehicle Station Base Request RoadNetwork : Type).

(** Modelled from the spec: the class [SimulationState] is not among the
    sources.  The fields are those of section 3 and of the constructor
    call in simulationstateops.py; the spatial indices, which section 3
    derives from the entity maps, are left out.  [vehicles] is an
    [immutables.Map]; it is listed in the order in which [keys()] iterates
    over it, which is the order the Step phase observes. *)
Record SimulationState : Type := mkSimulationState {
  road_network : RoadNetwork;
  sim_time : Z;
  sim_timestep_duration_seconds : Z;
  sim_h3_resolution : Z;
  vehicles : list (string * Vehicle);
  stations : list (string * Station);
  bases : list (string * Base);
  requests : list (string * Request)
}.

(** [simulation_state.vehicles.keys()] *)
Definition vehicles_keys (s : SimulationState) : list string :=
  map fst (vehicles s).

(** Modelled from the spec: [tick] belongs to the missing class; section
    4.1 has it return self with sim_time += timestep. *)
Definition tick (s : SimulationState) : SimulationState :=
  mkSimulationState (road_network s)
    (sim_time s + sim_timestep_duration_seconds s)
    (sim_timestep_duration_seconds s) (sim_h3_resolution s)
    (vehicles s) (stations s) (bases s) (requests s).

Variables (Environment Instruction Dispatcher : Type).

(** Methods of classes that are not among the sources:
    [SimulationState.step_vehicle(vid, env)],
    [Instruction.apply_instruction(sim)] and
    [DispatcherInterface.generate_instructions(sim, env)]. *)
Variable step_vehicle :
  SimulationState -> string -> Environment -> option SimulationState.
Variable apply_instruction :
  Instruction -> SimulationState -> option SimulationState.
Variable generate_instructions :
  Dispatcher -> SimulationState -> Environment -> Dispatcher * list Instruction.

(** The local function [_step_vehicle] of [step_simulation]; its free
    variables [simulation_state] and [env] are the first two arguments. *)
Definition _step_vehicle (simulation_state : SimulationState)
    (env : Environment) (s : SimulationState) (vid : string)
  : SimulationState :=
  let updated_sim := step_vehicle s vid env in
  match updated_sim with
  | None => simulation_state
  | Some updated_sim => updated_sim
  end.

(** [ft.reduce(f, xs, init)] is [fold_left f xs init]. *)
Definition step_simulation (simulation_state : SimulationState)
    (env : Environment) : SimulationState :=
  let next_state :=
    fold_left (_step_vehicle simulation_state env)
      (vehicles_keys simulation_state) simulation_state in
  tick next_state.

(** The local function [_add_instruction] of [apply_instructions]. *)
Definition _add_instruction (simulation_state : SimulationState)
    (s : SimulationState) (instruction : Instruction) : SimulationState :=
  let updated_sim := apply_instruction instruction s in
  match updated_sim with
  | None => simulation_state
  | Some updated_sim => updated_sim
  end.

Definition apply_instructions (simulation_state : SimulationState)
    (instructions : list Instruction) : SimulationState :=
  fold_left (_add_instruction simulation_state) instructions simulation_state.

(** [SimulationUpdateResult(sim)]: the result tuple of an update function,
    built here from the state alone. *)
Record SimulationUpdateResult : Type := mkSimulationUpdateResult {
  simulation_state : SimulationState
}.

(** [class StepSimulation(NamedTuple, SimulationUpdateFunction)] *)
Record StepSimulation : Type := mkStepSimulation {
  dispatcher : Dispatcher
}.

Definition update (self : StepSimulation) (simulation_state : SimulationState)
    (env : Environment) : SimulationUpdateResult * option StepSimulation :=
  let '(updated_dispatcher, instructions) :=
    generate_instructions (dispatcher self) simulation_state env in
  let sim_with_instructions :=
    apply_instructions simulation_state instructions in
  let sim_next_time_step := step_simulation sim_with_instructions env in
  (mkSimulationUpdateResult sim_next_time_step,
   Some (mkStepSimulation updated_dispatcher)).

(** The Step phase with the calls of [step_vehicle] recorded: the same
    fold, which also appends each vehicle id to a log when [_step_vehicle]
    is entered with it. *)
Definition _step_vehicle_logged (simulation_state : SimulationState)
    (env : Environment) (acc : SimulationState * list string) (vid : string)
  : SimulationState * list string :=
  (_step_vehicle simulation_state env (fst acc) vid, snd acc ++ [vid]).

Definition step_simulation_logged (simulation_state : SimulationState)
    (env : Environment) : SimulationState * list string :=
  let acc :=
    fold_left (_step_vehicle_logged simulation_state env)
      (vehicles_keys simulation_state) (simulation_state, []) in
  (tick (fst acc), snd acc).

(** Two states show the same clock. *)
Definition same_clock (a b : SimulationState) : Prop :=
  sim_time b = sim_time a /\
  sim_timestep_duration_seconds b = sim_timestep_duration_seconds a.

(** Neither an instruction nor a vehicle step touches the clock: both act
    on the entities of the state (section 4.5: a vehicle-state transition,
    plug reservation, passenger attachment). *)
Definition instructions_keep_clock : Prop :=
  forall i s s', apply_instruction i s = Some s' -> same_clock s s'.

Definition steps_keep_clock (env : Environment) : Prop :=
  forall s vid s', step_vehicle s vid env = Some s' -> same_clock s s'.

End SimulationState.

Arguments mkSimulationState {_ _ _ _ _}.
Arguments road_network {_ _ _ _ _}.
Arguments sim_time {_ _ _ _ _}.
Arguments sim_timestep_duration_seconds {_ _ _ _ _}.
Arguments sim_h3_resolution {_ _ _ _ _}.
Arguments vehicles {_ _ _ _ _}.
Arguments stations {_ _ _ _ _}.
Arguments bases {_ _ _ _ _}.
Arguments requests {_ _ _ _ _}.
Arguments vehicles_keys {_ _ _ _ _}.
Arguments tick {_ _ _ _ _}.
Arguments _step_vehicle {_ _ _ _ _ _}.
Arguments step_simulation {_ _ _ _ _ _}.
Arguments _add_instruction {_ _ _ _ _ _}.
Arguments apply_instructions {_ _ _ _ _ _}.
Arguments mkSimulationUpdateResult {_ _ _ _ _}.
Arguments simulation_state {_ _ _ _ _}.
Arguments mkStepSimulation {_}.
Arguments dispatcher {_}.
Arguments update {_ _ _ _ _ _ _ _}.
Arguments _step_vehicle_logged {_ _ _ _ _ _}.
Arguments step_simulation_logged {_ _ _ _ _ _}.
Arguments same_clock {_ _ _ _ _}.
Arguments instructions_keep_clock {_ _ _ _ _ _}.
Arguments steps_keep_clock {_ _ _ _ _ _}.

(** A small fleet to run the pipeline on: a vehicle is its state of charge
    in percent, there are no stations, bases or requests, and the
    environment is the energy one step costs. *)
Definition Fleet : Type := SimulationState Z unit unit unit unit.

Definition fleet (t : Z) (vs : list (string * Z)) : Fleet :=
  mkSimulationState tt t 60 15 vs [] [] [].

Fixpoint set_soc (vid : string) (soc : Z) (vs : list (string * Z))
  : list (string * Z) :=
  match vs with
  | [] => []
  | (k, x) :: rest =>
      if String.eqb k vid then (k, soc) :: rest
      else (k, x) :: set_soc vid soc rest
  end.

Fixpoint get_soc (vid : string) (vs : list (string * Z)) : option Z :=
  match vs with
  | [] => None
  | (k, x) :: rest => if String.eqb k vid then Some x else get_soc vid rest
  end.

(** Stepping a vehicle uses [cost] percent of charge; it fails on a
    vehicle that is absent or has less than that left. *)
Definition drain_vehicle (s : Fleet) (vid : string) (cost : Z)
  : option Fleet :=
  match get_soc vid (vehicles s) with
  | None => None
  | Some soc =>
      if soc <? cost then None
      else Some (mkSimulationState (road_network s) (sim_time s)
                   (sim_timestep_duration_seconds s) (sim_h3_resolution s)
                   (set_soc vid (soc - cost) (vehicles s))
                   (stations s) (bases s) (requests s))
  end.

(** Two instructions: recharge a vehicle to 100 percent (fails on an
    unknown vehicle), and one that is never admissible. *)
Inductive FleetInstruction : Type :=
| Recharge (vid : string)
| Inadmissible.

Definition apply_fleet_instruction (i : FleetInstruction) (s : Fleet)
  : option Fleet :=
  match i with
  | Recharge vid =>
      match get_soc vid (vehicles s) with
      | None => None
      | Some _ =>
          Some (mkSimulationState (road_network s) (sim_time s)
                  (sim_timestep_duration_seconds s) (sim_h3_resolution s)
                  (set_soc vid 100 (vehicles s))
                  (stations s) (bases s) (requests s))
      end
  | Inadmissible => None
  end.

(** A dispatcher that replays a fixed list of instructions. *)
Definition replay (d : list FleetInstruction) (s : Fleet) (env : Z)
  : list FleetInstruction * list FleetInstruction := (d, d).

End step_simulation.

(** ** hive/reporting/reporter.py *)

Module reporter.

(** What a call returns, or the exception it raises. *)
Inductive outcome (A : Type) : Type :=
| Returned (a : A)
| ZeroDivisionError.

Arguments Returned {A} a.
Arguments ZeroDivisionError {A}.

(** The part of [GlobalConfig] (not among the sources) the reporter reads. *)
Record GlobalConfig : Type := mkGlobalConfig {
  log_period_seconds : Z
}.

Section Reporter.

(** [Report] carries a report type and a dictionary; its content plays no
    role in the buffer's life.  [Handler] is the interface of the report
    sinks, [RunnerPayload] the argument handed through to them;
    [sim_time p] is [p.s.sim_time]. *)
Variables (Report Handler RunnerPayload : Type).
Variable sim_time : RunnerPayload -> Z.

(** [class Reporter]: the attributes set by [__init__]. *)
Record Reporter : Type := mkReporter {
  config : GlobalConfig;
  reports : list Report;
  handlers : list Handler
}.

Definition __init__ (config : GlobalConfig) : Reporter :=
  mkReporter config [] [].

Definition add_handler (self : Reporter) (handler : Handler) : Reporter :=
  mkReporter (config self) (reports self) (handlers self ++ [handler]).

Definition file_report (self : Reporter) (report : Report) : Reporter :=
  mkReporter (config self) (reports self ++ [report]) (handlers self).

(** A call [handler.handle(reports, runner_payload)]: what a handler does
    with it is behind the interface, so the call itself is the effect. *)
Inductive Call : Type :=
| handle (handler : Handler) (reports : list Report)
    (runner_payload : RunnerPayload).

(** [flush]: the reporter afterwards, and the handler calls made, in order.
    [%] on Python integers is the floored remainder, which is [Z.modulo]
    for a divisor other than 0; on 0 Python raises. *)
Definition flush (self : Reporter) (runner_payload : RunnerPayload)
  : outcome (Reporter * list Call) :=
  if log_period_seconds (config self) =? 0 then ZeroDivisionError
  else if negb (sim_time runner_payload mod log_period_seconds (config self)
                =? 0)
  then Returned (self, [])
  else
    Returned
      (mkReporter (config self) [] (handlers self),
       map (fun handler => handle handler (reports self) runner_payload)
         (handlers self)).

End Reporter.

Arguments mkReporter {_ _}.
Arguments config {_ _}.
Arguments reports {_ _}.
Arguments handlers {_ _}.
Arguments __init__ {_ _}.
Arguments add_handler {_ _}.
Arguments file_report {_ _}.
Arguments handle {_ _ _}.
Arguments flush {_ _ _}.

(** A reporter with two named handlers and two buffered reports, logging
    every 60 seconds; the payload is the simulation time itself. *)
Definition minute_reporter : Reporter string string :=
  mkReporter (mkGlobalConfig 60) ["dispatch"; "charge"] ["csv"; "stats"].

End reporter.

(** ** hive/dispatcher/instruction_generator/charging_fleet_manager.py *)

Module charging_fleet_manager.

(** The vehicle state classes this module tests with [isinstance]; the
    value keeps the class of the state object and drops its payload. *)
Definition VehicleStateClass : Type := vehicle.VehicleState.

Definition Idle : VehicleStateClass := vehicle.IDLE.
Definition Repositioning : VehicleStateClass := vehicle.REPOSITIONING.
Definition ChargingStation : VehicleStateClass := vehicle.CHARGING_STATION.

(** The attributes of a vehicle this generator reads; [energy] stands for
    what the mechatronics model looks at. *)
Record Vehicle : Type := mkVehicle {
  id : string;
  mechatronics_id : string;
  vehicle_state : VehicleStateClass;
  energy : Q
}.

(** The two queries of the [Mechatronics] interface used here; Python
    floats are taken as rationals. *)
Record Mechatronics : Type := mkMechatronics {
  range_remaining_km : Vehicle -> Q;
  fuel_source_soc : Vehicle -> Q
}.

(** [DispatcherConfig], as listed in section 6. *)
Record DispatcherConfig : Type := mkDispatcherConfig {
  charging_range_km_threshold : Q;
  ideal_fastcharge_soc_limit : Q;
  max_search_radius_km : Q;
  charging_search_type : string
}.

(** [environment.config.dispatcher] and [environment.mechatronics]. *)
Record Environment : Type := mkEnvironment {
  config_dispatcher : DispatcherConfig;
  mechatronics : gmap string Mechatronics
}.

Definition SimulationState : Type :=
  step_simulation.SimulationState Vehicle unit unit unit unit.

(** [class ChargingFleetManager(NamedTuple, InstructionGenerator)] *)
Record ChargingFleetManager : Type := mkChargingFleetManager {
  config : DispatcherConfig
}.

(** Modelled from the spec: the instruction classes are not among the
    sources; section 4.5 lists the kinds, of which this generator emits
    DispatchStation (vehicle, station, charger) and SitIdle (vehicle). *)
Inductive Instruction : Type :=
| DispatchStation (vehicle_id station_id charger_id : string)
| SitIdle (vehicle_id : string).

(** A report filed with [environment.reporter]. *)
Inductive Report : Type :=
| refuel_search_event (vehicle_id : string).

(** Ordered insertion by vehicle id. *)
Fixpoint insert_by_id (v : Vehicle) (vs : list Vehicle) : list Vehicle :=
  match vs with
  | [] => [v]
  | w :: rest =>
      if String.leb (id v) (id w) then v :: w :: rest
      else w :: insert_by_id v rest
  end.

Definition sort_by_id (vs : list Vehicle) : list Vehicle :=
  foldr insert_by_id [] vs.

(** A filter function may raise (here: an attribute access on [None]);
    [None] stands for the raised exception, which ends the whole call. *)
Fixpoint filter_raising (f : Vehicle -> option bool) (vs : list Vehicle)
  : option (list Vehicle) :=
  match vs with
  | [] => Some []
  | v :: rest =>
      match f v with
      | None => None
      | Some keep =>
          match filter_raising f rest with
          | None => None
          | Some kept => Some (if keep then v :: kept else kept)
          end
      end
  end.

(** Modelled from the spec: [SimulationState.get_vehicles] is missing;
    section 4.1 has it return the vehicles that pass the filter, in
    id-sorted order. *)
Definition get_vehicles (simulation_state : SimulationState)
    (filter_function : Vehicle -> option bool) : option (list Vehicle) :=
  filter_raising filter_function
    (sort_by_id (map snd (step_simulation.vehicles simulation_state))).

Section Generator.

(** The search for the nearest suitable plug (road network and station
    inventory are outside this module): the station and charger found for
    a vehicle, given the search radius, the target soc and the search
    type. *)
Variable nearest_plug :
  Q -> SimulationState -> Environment -> Q -> string -> Vehicle ->
  string * string.

(** Modelled from the spec: the helpers of instruction_generator_ops are
    missing; section 4.4 has the manager emit, for the selected vehicles,
    DispatchToStation with the nearest suitable plug, and SitIdle.  [n]
    bounds the number of instructions. *)
Definition instruct_vehicles_to_dispatch_to_station (n : nat)
    (max_search_radius_km : Q) (vehicles : list Vehicle)
    (simulation_state : SimulationState) (environment : Environment)
    (target_soc : Q) (charging_search_type : string) : list Instruction :=
  map (fun v =>
         let plug :=
           nearest_plug max_search_radius_km simulation_state environment
             target_soc charging_search_type v in
         DispatchStation (id v) (fst plug) (snd plug))
    (firstn n vehicles).

Definition instruct_vehicles_to_sit_idle (n : nat) (vehicles : list Vehicle)
  : list Instruction :=
  map (fun v => SitIdle (id v)) (firstn n vehicles).

(** The local function [charge_candidate] of [generate_instructions]. *)
Definition charge_candidate (environment : Environment) (v : Vehicle)
  : option bool :=
  let proper_state :=
    bool_decide (vehicle_state v = Idle)
    || bool_decide (vehicle_state v = Repositioning) in
  if negb proper_state then Some false
  else
    match mechatronics environment !! mechatronics_id v with
    | None => None
    | Some mechatronics =>
        let range_remaining_km := range_remaining_km mechatronics v in
        let is_charge_candidate :=
          Qle_bool range_remaining_km
            (charging_range_km_threshold (config_dispatcher environment)) in
        Some is_charge_candidate
    end.

(** The local function [stop_charge_candidate]. *)
Definition stop_charge_candidate (self : ChargingFleetManager)
    (environment : Environment) (v : Vehicle) : option bool :=
  let proper_state := bool_decide (vehicle_state v = ChargingStation) in
  if negb proper_state then Some false
  else
    match mechatronics environment !! mechatronics_id v with
    | None => None
    | Some mechatronics =>
        let battery_soc := fuel_source_soc mechatronics v in
        let is_stop_charge_candidate :=
          Qle_bool (ideal_fastcharge_soc_limit (config self)) battery_soc in
        Some is_stop_charge_candidate
    end.

(** [generate_instructions]: the manager, the instructions, and the
    reports filed on the way; [None] when a filter raised. *)
Definition generate_instructions (self : ChargingFleetManager)
    (simulation_state : SimulationState) (environment : Environment)
  : option (ChargingFleetManager * list Instruction * list Report) :=
  match get_vehicles simulation_state (charge_candidate environment) with
  | None => None
  | Some low_soc_vehicles =>
      match get_vehicles simulation_state
              (stop_charge_candidate self environment) with
      | None => None
      | Some high_soc_vehicles =>
          let filed :=
            map (fun v => refuel_search_event (id v)) low_soc_vehicles in
          let charge_instructions :=
            instruct_vehicles_to_dispatch_to_station
              (List.length low_soc_vehicles)
              (max_search_radius_km (config self))
              low_soc_vehicles simulation_state environment
              (ideal_fastcharge_soc_limit (config_dispatcher environment))
              (charging_search_type (config_dispatcher environment)) in
          let stop_charge_instructions :=
            instruct_vehicles_to_sit_idle (List.length high_soc_vehicles)
              high_soc_vehicles in
          let instructions :=
            charge_instructions ++ stop_charge_instructions in
          Some (self, instructions, filed)
      end
  end.

End Generator.

(** What the claim speaks of: the vehicle is in a state the charge search
    applies to and its range is at or below the threshold; the vehicle is
    charging at a station and its soc is at or above the limit. *)
Definition low_range (environment : Environment) (m : Mechatronics)
    (v : Vehicle) : Prop :=
  (vehicle_state v = Idle \/ vehicle_state v = Repositioning) /\
  (range_remaining_km m v <=
   charging_range_km_threshold (config_dispatcher environment))%Q.

Definition charged_enough (self : ChargingFleetManager) (m : Mechatronics)
    (v : Vehicle) : Prop :=
  vehicle_state v = ChargingStation /\
  (ideal_fastcharge_soc_limit (config self) <= fuel_source_soc m v)%Q.

(** A fleet of four with one mechatronics model: range is 4 km per percent
    of energy, soc is energy over 100. *)
Definition linear_model : Mechatronics :=
  mkMechatronics (fun v => energy v * 4)%Q (fun v => energy v / 100)%Q.

Definition sample_config : DispatcherConfig :=
  mkDispatcherConfig 20 (8 # 10) 100 "nearest_shortest_queue".

Definition sample_env : Environment :=
  mkEnvironment sample_config {[ "leaf" := linear_model ]}.

Definition sample_sim : SimulationState :=
  step_simulation.mkSimulationState tt 0 60 15
    [ ("v003", mkVehicle "v003" "leaf" ChargingStation 90);
      ("v001", mkVehicle "v001" "leaf" Idle 4);
      ("v004", mkVehicle "v004" "leaf" vehicle.DISPATCH_TRIP 3);
      ("v002", mkVehicle "v002" "leaf" Repositioning 50) ]
    [] [] [].

Definition only_plug (r : Q) (s : SimulationState) (e : Environment)
    (target : Q) (kind : string) (v : Vehicle) : string * string :=
  ("s1", "DCFC").

End charging_fleet_manager.

(** ** hive/dispatcher.py *)

Module dispatcher.

Section Dispatcher.

(** The entries of the fleet state matrix are numpy doubles.  The number
    type is left open, with the operations and comparisons the matching
    uses, so that nothing below depends on exact arithmetic. *)
Variable num : Type.
Variables (add sub mul div : num -> num -> num).
Variables (ltb gtb geb eqb : num -> num -> bool).
Variable one : num.

(** [units.KILOMETERS_TO_MILES] and the compiled [vector_haversine], which
    gives, row by row, the distance from (x, y) to the point. *)
Variable KILOMETERS_TO_MILES : num.
Variable haversine : num -> num -> num * num -> num.

(** A row of [fleet_state]: the columns named by
    [ENV['FLEET_STATE_IDX']]; the row number is the vehicle id. *)
Record FleetRow : Type := mkFleetRow {
  x : num;
  y : num;
  active : num;
  available : num;
  soc : num;
  idle_min : num;
  avail_seats : num;
  KWH__MI : num;
  BATTERY_CAPACITY_KWH : num
}.

(** The environment parameters read by the dispatcher. *)
Record EnvParams : Type := mkEnvParams {
  MAX_DISPATCH_MILES : num;
  MIN_ALLOWED_SOC : num;
  LOWER_SOC_THRESH_STATION : num;
  MAX_ALLOWABLE_IDLE_MINUTES : num
}.

(** The request tuple, as far as the matching reads it. *)
Record Request : Type := mkRequest {
  pickup_lat : num;
  pickup_lon : num;
  distance_miles : num;
  passengers : num
}.

(** [np.argsort]: the row numbers in ascending order of their value.  A
    row is put in front of the first one with a strictly larger value;
    numpy does not fix the order among equal values. *)
Fixpoint argsort_insert (d : num) (i : nat) (sorted : list (num * nat))
  : list (num * nat) :=
  match sorted with
  | [] => [(d, i)]
  | (e, j) :: rest =>
      if ltb d e then (d, i) :: (e, j) :: rest
      else (e, j) :: argsort_insert d i rest
  end.

Fixpoint argsort_from (i : nat) (ds : list num) : list (num * nat) :=
  match ds with
  | [] => []
  | d :: rest => argsort_insert d i (argsort_from (S i) rest)
  end.

Definition argsort (ds : list num) : list nat :=
  map snd (argsort_from 0 ds).

(** [dist]: haversine distance of every row to the pickup point, in
    miles. *)
Definition distances (fleet_state : list FleetRow) (request : Request)
  : list num :=
  let point := (pickup_lat request, pickup_lon request) in
  map (fun row => mul (haversine (x row) (y row) point) KILOMETERS_TO_MILES)
    fleet_state.

(** The entry of [dist] for one row: the dispatch leg of that vehicle, in
    miles. *)
Definition dispatch_miles (request : Request) (row : FleetRow) : num :=
  mul (haversine (x row) (y row) (pickup_lat request, pickup_lon request))
    KILOMETERS_TO_MILES.

(** The four masks, each row paired with its distance. *)
Definition dist_mask (ENV : EnvParams) (dist : list num) : list bool :=
  map (fun d => ltb d (MAX_DISPATCH_MILES ENV)) dist.

Definition available_mask (fleet_state : list FleetRow) : list bool :=
  map (fun row => eqb (available row) one) fleet_state.

Definition soc_after_trip (request : Request) (row : FleetRow) (d : num)
  : num :=
  sub (soc row)
    (div (mul (add d (distance_miles request)) (KWH__MI row))
       (BATTERY_CAPACITY_KWH row)).

Definition min_soc_mask (ENV : EnvParams) (request : Request)
    (fleet_state : list FleetRow) (dist : list num) : list bool :=
  map (fun rd => gtb (soc_after_trip request (fst rd) (snd rd))
                   (MIN_ALLOWED_SOC ENV))
    (combine fleet_state dist).

Definition avail_seats_mask (request : Request)
    (fleet_state : list FleetRow) : list bool :=
  map (fun row => geb (avail_seats row) (passengers request)) fleet_state.

(** Elementwise [&] of boolean arrays of one length. *)
Fixpoint mask_and (a b : list bool) : list bool :=
  match a, b with
  | p :: a', q :: b' => (p && q) :: mask_and a' b'
  | _, _ => []
  end.

(** [mask[i]] for a row number [i] of the matrix. *)
Definition mask_at (mask : list bool) (i : nat) : bool :=
  nth i mask false.

(** [_get_n_best_vehicles]: [best_vehs_idx[mask[best_vehs_idx]][:n]]. *)
Definition _get_n_best_vehicles (ENV : EnvParams)
    (fleet_state : list FleetRow) (request : Request) (n : nat) : list nat :=
  let dist := distances fleet_state request in
  let best_vehs_idx := argsort dist in
  let mask :=
    mask_and
      (mask_and
         (mask_and (dist_mask ENV dist) (available_mask fleet_state))
         (min_soc_mask ENV request fleet_state dist))
      (avail_seats_mask request fleet_state) in
  let best_vehs_ids := firstn n (List.filter (mask_at mask) best_vehs_idx) in
  best_vehs_ids.

(** A row passes the four tests of the matching: it lies within the
    dispatch radius, is available, keeps its soc above the minimum over
    dispatch leg and trip leg, and has the seats. *)
Definition eligible (ENV : EnvParams) (request : Request) (row : FleetRow)
  : Prop :=
  ltb (dispatch_miles request row) (MAX_DISPATCH_MILES ENV) = true /\
  eqb (available row) one = true /\
  gtb (soc_after_trip request row (dispatch_miles request row))
    (MIN_ALLOWED_SOC ENV) = true /\
  geb (avail_seats row) (passengers request) = true.

End Dispatcher.

Arguments mkFleetRow {_}.
Arguments x {_}.
Arguments y {_}.
Arguments active {_}.
Arguments available {_}.
Arguments soc {_}.
Arguments idle_min {_}.
Arguments avail_seats {_}.
Arguments KWH__MI {_}.
Arguments BATTERY_CAPACITY_KWH {_}.
Arguments mkEnvParams {_}.
Arguments MAX_DISPATCH_MILES {_}.
Arguments MIN_ALLOWED_SOC {_}.
Arguments mkRequest {_}.
Arguments pickup_lat {_}.
Arguments pickup_lon {_}.
Arguments distance_miles {_}.
Arguments passengers {_}.
Arguments argsort {_}.
Arguments distances {_}.
Arguments soc_after_trip {_}.
Arguments dispatch_miles {_}.
Arguments min_soc_mask {_}.
Arguments _get_n_best_vehicles {_}.
Arguments argsort_insert {_}.
Arguments argsort_from {_}.
Arguments dist_mask {_}.
Arguments available_mask {_}.
Arguments avail_seats_mask {_}.
Arguments eligible {_}.

(** The matching run on rationals, on a flat map: the distance is the
    city-block distance, and one unit of it is one mile. *)
Definition Qgtb (a b : Q) : bool := negb (Qle_bool a b).
Definition Qltb (a b : Q) : bool := negb (Qle_bool b a).
Definition Qgeb (a b : Q) : bool := Qle_bool b a.

Definition city_block (px py : Q) (point : Q * Q) : Q :=
  (Qabs (px - fst point) + Qabs (py - snd point))%Q.

Definition best_vehicles_Q (ENV : EnvParams Q) (fleet_state : list (FleetRow Q))
    (request : Request Q) (n : nat) : list nat :=
  _get_n_best_vehicles Qplus Qminus Qmult Qdiv Qltb Qgtb Qgeb Qeq_bool 1%Q
    1%Q city_block ENV fleet_state request n.

Definition distances_Q (fleet_state : list (FleetRow Q)) (request : Request Q)
  : list Q :=
  distances Qmult 1%Q city_block fleet_state request.

(** Scenario S5: vehicle 0 stands one mile from the pickup with 10 percent
    of a 50 kWh battery, vehicle 1 four miles away with 90 percent; the trip
    is 20 miles at 0.3 kWh per mile, and the soc may not fall below 5
    percent. *)
Definition s5_env : EnvParams Q := mkEnvParams 10%Q (5 # 100) (2 # 10) 10%Q.

Definition s5_fleet : list (FleetRow Q) :=
  [ mkFleetRow 1%Q 0%Q 1%Q 1%Q (10 # 100) 0%Q 4%Q (3 # 10) 50%Q;
    mkFleetRow 4%Q 0%Q 1%Q 1%Q (90 # 100) 0%Q 4%Q (3 # 10) 50%Q ].

Definition s5_request : Request Q := mkRequest 0%Q 0%Q 20%Q 1%Q.

(** Two charged vehicles, four miles and two miles from the pickup. *)
Definition charged_fleet : list (FleetRow Q) :=
  [ mkFleetRow 4%Q 0%Q 1%Q 1%Q (90 # 100) 0%Q 4%Q (3 # 10) 50%Q;
    mkFleetRow 2%Q 0%Q 1%Q 1%Q (80 # 100) 0%Q 4%Q (3 # 10) 50%Q ].

Definition eligible_Q (ENV : EnvParams Q) (request : Request Q)
    (row : FleetRow Q) : Prop :=
  eligible Qplus Qminus Qmult Qdiv Qltb Qgtb Qgeb Qeq_bool 1%Q 1%Q city_block
    ENV request row.

End dispatcher.

(** ** hive/model/vehicle/vehicle.py, the remaining operations *)

Module vehicle_operations.

Import vehicle.

(** The exceptions these operations raise. *)
Inductive exception : Type :=
| EntityError
| IndexError
| AttributeError
| SimulationStateError.

#[global] Instance exception_eq_dec : EqDecision exception.
Proof. solve_decision. Defined.

Inductive result (A : Type) : Type :=
| Ok (a : A)
| Raise (e : exception).

Arguments Ok {A} a.
Arguments Raise {A} e.

(** [RouteTraversal], as far as [move] reads it. *)
Record RouteTraversal (Link : Type) : Type := mkRouteTraversal {
  experienced_route : list Link;
  traversal_distance_km : Q;
  remaining_route : list Link
}.

Arguments mkRouteTraversal {Link}.
Arguments experienced_route {Link}.
Arguments traversal_distance_km {Link}.
Arguments remaining_route {Link}.

Section Operations.

Variables (EnergySource Link Passenger Charger : Type).
Variables (Powercurve Powertrain RoadNetwork : Type).

Abbreviation Vehicle' := (Vehicle EnergySource Link Passenger Charger).

(** The interfaces of the collaborators: a passenger's id and
    [add_vehicle_id]; the energy source, the powercurve and the
    powertrain; [traverse]; the end geoid of a link and the road network's
    [link_from_geoid].  Geoids are strings. *)
Variable passenger_id : Passenger -> string.
Variable add_vehicle_id : Passenger -> string -> Passenger.
Variable is_at_ideal_energy_limit : EnergySource -> bool.
Variable is_empty : EnergySource -> bool.
Variable use_energy : EnergySource -> Q -> EnergySource.
Variable refuel : Powercurve -> EnergySource -> Charger -> Z -> EnergySource.
Variable energy_cost : Powertrain -> list Link -> Q.
Variable traverse : list Link -> Z -> option (RouteTraversal Link).
Variable link_end : Link -> string.
Variable link_from_geoid : RoadNetwork -> string -> Link.
Variable SECONDS_TO_HOURS : Q.

Definition modify_energy_source (v : Vehicle') (e : EnergySource) : Vehicle' :=
  mkVehicle (id v) (powertrain_id v) (powercurve_id v) e
    (link v) (operating_cost_km v) (route v) (vehicle_state v) (passengers v)
    (charger_intent v) (balance v) (idle_time_seconds v)
    (distance_traveled_km v).

Definition modify_link (v : Vehicle') (l : Link) : Vehicle' :=
  mkVehicle (id v) (powertrain_id v) (powercurve_id v) (energy_source v)
    l (operating_cost_km v) (route v) (vehicle_state v) (passengers v)
    (charger_intent v) (balance v) (idle_time_seconds v)
    (distance_traveled_km v).

(** [self._replace(passengers=...)] *)
Definition replace_passengers (v : Vehicle') (p : gmap string Passenger)
  : Vehicle' :=
  mkVehicle (id v) (powertrain_id v) (powercurve_id v) (energy_source v)
    (link v) (operating_cost_km v) (route v) (vehicle_state v) p
    (charger_intent v) (balance v) (idle_time_seconds v)
    (distance_traveled_km v).

(** [self._replace(link=..., distance_traveled_km=...)] *)
Definition replace_position (v : Vehicle') (l : Link) (d : Q) : Vehicle' :=
  mkVehicle (id v) (powertrain_id v) (powercurve_id v) (energy_source v)
    l (operating_cost_km v) (route v) (vehicle_state v) (passengers v)
    (charger_intent v) (balance v) (idle_time_seconds v) d.

(** [add_passengers]: every new passenger gets the vehicle's id and is
    set under its own id, in the order of the tuple. *)
Definition add_passengers (v : Vehicle') (new_passengers : list Passenger)
  : Vehicle' :=
  replace_passengers v
    (fold_left
       (fun p new =>
          let new_with_veh_id := add_vehicle_id new (id v) in
          <[passenger_id new_with_veh_id := new_with_veh_id]> p)
       new_passengers (passengers v)).

(** [drop_off_passenger]; [DictOps.remove_from_dict] gives the map
    without the key. *)
Definition drop_off_passenger (v : Vehicle') (pid : string) : Vehicle' :=
  match passengers v !! pid with
  | None => v
  | Some _ => replace_passengers v (delete pid (passengers v))
  end.

(** [charge] *)
Definition charge (v : Vehicle') (powercurve : Powercurve)
    (duration_seconds : Z) : result Vehicle' :=
  match charger_intent v with
  | None => Raise EntityError
  | Some charger =>
      if is_at_ideal_energy_limit (energy_source v) then Ok v
      else
        let updated_energy_source :=
          refuel powercurve (energy_source v) charger duration_seconds in
        Ok (modify_energy_source v updated_energy_source)
  end.

(** [idle]; the idle energy rate is the constant 0.8 of the source. *)
Definition idle (v : Vehicle') (time_step_seconds : Z) : result Vehicle' :=
  if decide (vehicle_state v <> IDLE) then Raise EntityError
  else
    let idle_energy_rate := (8 # 10)%Q in
    let idle_energy_kwh :=
      (idle_energy_rate * (inject_Z time_step_seconds * SECONDS_TO_HOURS))%Q in
    let updated_energy_source :=
      use_energy (energy_source v) idle_energy_kwh in
    let less_energy_vehicle := modify_energy_source v updated_energy_source in
    let next_idle_time :=
      idle_time_seconds less_energy_vehicle + time_step_seconds in
    Ok (mkVehicle (id less_energy_vehicle) (powertrain_id less_energy_vehicle)
          (powercurve_id less_energy_vehicle)
          (energy_source less_energy_vehicle) (link less_energy_vehicle)
          (operating_cost_km less_energy_vehicle) (route less_energy_vehicle)
          (vehicle_state less_energy_vehicle) (passengers less_energy_vehicle)
          (charger_intent less_energy_vehicle) (balance less_energy_vehicle)
          next_idle_time (distance_traveled_km less_energy_vehicle)).

(** [move]: [Ok None] is the Python result None; [experienced_route[-1]]
    raises IndexError on an empty experienced route. *)
Definition move (v : Vehicle') (road_network : RoadNetwork)
    (power_train : Powertrain) (duration_seconds : Z)
  : result (option Vehicle') :=
  if negb (has_route v) then Ok (transition v IDLE)
  else
    match traverse (route v) duration_seconds with
    | None => Ok (Some (assign_route v []))
    | Some traverse_result =>
        let experienced_route := experienced_route traverse_result in
        let energy_used := energy_cost power_train experienced_route in
        let step_distance_km := traversal_distance_km traverse_result in
        let remaining_route := remaining_route traverse_result in
        let updated_energy_source :=
          use_energy (energy_source v) energy_used in
        let less_energy_vehicle :=
          assign_route (modify_energy_source v updated_energy_source)
            remaining_route in
        let updated_vehicle :=
          if is_empty updated_energy_source
          then transition less_energy_vehicle OUT_OF_SERVICE
          else Some less_energy_vehicle in
        match updated_vehicle with
        | None => Ok None
        | Some updated_vehicle =>
            match remaining_route with
            | [] =>
                match last (experienced_route) with
                | None => Raise IndexError
                | Some l =>
                    let geoid := link_end l in
                    Ok (Some (replace_position updated_vehicle
                                (link_from_geoid road_network geoid)
                                (distance_traveled_km v + step_distance_km)%Q))
                end
            | first :: _ =>
                Ok (Some (replace_position updated_vehicle first
                            (distance_traveled_km v + step_distance_km)%Q))
            end
        end
    end.

(** [send_payment] and [receive_payment] *)
Definition send_payment (v : Vehicle') (amount : Q) : Vehicle' :=
  mkVehicle (id v) (powertrain_id v) (powercurve_id v) (energy_source v)
    (link v) (operating_cost_km v) (route v) (vehicle_state v) (passengers v)
    (charger_intent v) (balance v - amount)%Q (idle_time_seconds v)
    (distance_traveled_km v).

Definition receive_payment (v : Vehicle') (amount : Q) : Vehicle' :=
  mkVehicle (id v) (powertrain_id v) (powercurve_id v) (energy_source v)
    (link v) (operating_cost_km v) (route v) (vehicle_state v) (passengers v)
    (charger_intent v) (balance v + amount)%Q (idle_time_seconds v)
    (distance_traveled_km v).

End Operations.

Arguments modify_energy_source {_ _ _ _}.
Arguments modify_link {_ _ _ _}.
Arguments replace_passengers {_ _ _ _}.
Arguments replace_position {_ _ _ _}.
Arguments add_passengers {_ _ _ _}.
Arguments drop_off_passenger {_ _ _ _}.
Arguments charge {_ _ _ _ _}.
Arguments idle {_ _ _ _}.
Arguments move {_ _ _ _ _ _}.
Arguments send_payment {_ _ _ _}.
Arguments receive_payment {_ _ _ _}.

(** Collaborators for the sample vehicles of [vehicle.sample]: the energy
    source is a charge in kWh, a link is its end geoid, a passenger is a
    pair of its id and the vehicle it rides. *)
Definition rider_id (p : string * option string) : string := fst p.

Definition board (p : string * option string) (vid : string)
  : string * option string := (fst p, Some vid).

Definition rider_vehicle (s : VehicleState) (r : list string)
    (p : gmap string (string * option string)) (e : Q)
  : Vehicle Q string (string * option string) string :=
  mkVehicle "v001" "leaf" "leaf" e "8f268cdac30e2d3" (1 # 2) r s p
    (Some "DCFC") 0 0 0.

(** A traversal that covers one link per step, and one that reports no
    link at all. *)
Definition one_link_per_step (r : list string) (duration_seconds : Z)
  : option (RouteTraversal string) :=
  match r with
  | [] => None
  | l :: rest => Some (mkRouteTraversal [l] 1%Q rest)
  end.

Definition stalled (r : list string) (duration_seconds : Z)
  : option (RouteTraversal string) :=
  Some (mkRouteTraversal [] 0%Q []).

Definition Q_is_empty (e : Q) : bool := Qle_bool e 0.

(** A step of 60 seconds that costs 10 kWh, whatever the links. *)
Definition sample_move
    (traverse : list string -> Z -> option (RouteTraversal string))
    (v : Vehicle Q string (string * option string) string)
  : result (option (Vehicle Q string (string * option string) string)) :=
  move Q_is_empty Qminus (fun (_ : unit) (r : list string) => 10%Q)
    traverse (fun l : string => l) (fun (_ : unit) (g : string) => g)
    v tt tt 60.

End vehicle_operations.

(** ** hive/reporting/reporter.py, the summary *)

Module reporter_summary.

Import reporter.

Section Summary.

Variables (Report Handler Stats : Type).

(** [isinstance(handler, StatsHandler)] together with
    [handler.get_stats()]: the statistics of a handler that is a
    StatsHandler, None for any other handler. *)
Variable get_stats : Handler -> option Stats.

(** [get_summary_stats]: [final_report] after the loop. *)
Definition get_summary_stats (self : Reporter Report Handler) : option Stats :=
  fold_left
    (fun final_report handler =>
       match get_stats handler with
       | Some stats => Some stats
       | None => final_report
       end)
    (handlers self) None.

End Summary.

Arguments get_summary_stats {_ _ _}.

End reporter_summary.

(** ** hive/simulationstate/simulationstateops.py *)

Module simulationstateops.

Import vehicle_operations.

(** What [initial_simulation_state] is handed in its three tuples.
    Python does not check the annotation, so a value in any of them may
    be a vehicle, a station, a base, or something else. *)
Inductive Entity (Vehicle Station Base Other : Type) : Type :=
| a_vehicle (v : Vehicle)
| a_station (s : Station)
| a_base (b : Base)
| another (x : Other).

Arguments a_vehicle {_ _ _ _} v.
Arguments a_station {_ _ _ _} s.
Arguments a_base {_ _ _ _} b.
Arguments another {_ _ _ _} x.

Section InitialState.

Variables (Vehicle Station Base Other RoadNetwork : Type).

(** The state class of this module and its error class are defined
    elsewhere: the constructor as it is called here, the three methods
    that add an entity and answer with the new state or an error, and the
    error built for a value that is no entity. *)
Variables (SimulationState SimulationStateError : Type).
Variable new_state : RoadNetwork -> Z -> Z -> Z -> SimulationState.
Variable add_vehicle :
  SimulationState -> Vehicle -> SimulationStateError + SimulationState.
Variable add_station :
  SimulationState -> Station -> SimulationStateError + SimulationState.
Variable add_base :
  SimulationState -> Base -> SimulationStateError + SimulationState.
Variable not_an_entity : Other -> SimulationStateError.

Definition Accumulator : Type :=
  (SimulationState * list SimulationStateError)%type.

Definition _add_to_accumulator (acc : Accumulator)
    (x : Entity Vehicle Station Base Other) : Accumulator :=
  let this_simulation_state := fst acc in
  let this_failures := snd acc in
  match x with
  | a_vehicle vehicle =>
      match add_vehicle this_simulation_state vehicle with
      | inl result => (this_simulation_state, result :: this_failures)
      | inr result => (result, this_failures)
      end
  | a_station station =>
      match add_station this_simulation_state station with
      | inl result => (this_simulation_state, result :: this_failures)
      | inr result => (result, this_failures)
      end
  | a_base base =>
      match add_base this_simulation_state base with
      | inl result => (this_simulation_state, result :: this_failures)
      | inr result => (result, this_failures)
      end
  | another x =>
      let failure := not_an_entity x in
      (this_simulation_state, failure :: this_failures)
  end.

Definition initial_simulation_state (road_network : RoadNetwork)
    (vehicles stations bases : list (Entity Vehicle Station Base Other))
    (start_time sim_timestep_duration_seconds sim_h3_resolution : Z)
  : Accumulator :=
  let simulation_state_builder :=
    new_state road_network start_time sim_timestep_duration_seconds
      sim_h3_resolution in
  let failures : list SimulationStateError := [] in
  let has_vehicles :=
    fold_left _add_to_accumulator vehicles
      (simulation_state_builder, failures) in
  let has_vehicles_and_stations :=
    fold_left _add_to_accumulator stations has_vehicles in
  let has_everything :=
    fold_left _add_to_accumulator bases has_vehicles_and_stations in
  has_everything.

End InitialState.

Arguments _add_to_accumulator {_ _ _ _ _ _}.
Arguments initial_simulation_state {_ _ _ _ _ _ _}.

(** The request at a location, as far as the terminal cases read it. *)
Record Request (Passenger : Type) : Type := mkRequest {
  dispatched_vehicle : option string;
  passengers : list Passenger
}.

Arguments mkRequest {Passenger}.
Arguments dispatched_vehicle {Passenger}.
Arguments passengers {Passenger}.

(** [kwargs['at_location']]: the requests, stations and bases at the
    vehicle's geoid; of the stations and bases only their presence is
    looked at. *)
Record AtLocation (Passenger Station Base : Type) : Type := mkAtLocation {
  requests : list (Request Passenger);
  stations : list Station;
  bases : list Base
}.

Arguments mkAtLocation {Passenger Station Base}.
Arguments requests {Passenger Station Base}.
Arguments stations {Passenger Station Base}.
Arguments bases {Passenger Station Base}.

(** A tuple is true when it is not empty. *)
Definition nonempty {A : Type} (l : list A) : bool :=
  match l with
  | [] => false
  | _ :: _ => true
  end.

Section TerminalStateSwitchCase.

Variables (EnergySource Link Passenger Charger Station Base : Type).

Abbreviation Vehicle'' := (vehicle.Vehicle EnergySource Link Passenger Charger).

(** A passenger's id, destination and [add_vehicle_id]; the start geoid of
    a link, which is the vehicle's [geoid]. *)
Variable passenger_id : Passenger -> string.
Variable destination : Passenger -> string.
Variable add_vehicle_id : Passenger -> string -> Passenger.
Variable link_start : Link -> string.

Definition geoid (v : Vehicle'') : string := link_start (vehicle.link v).

(** [_case_serving_trip]; the loop runs over the passengers the vehicle
    had on entry. *)
Definition _case_serving_trip (v : Vehicle'') : result (option Vehicle'') :=
  if negb (vehicle.has_route v) then
    let dropped :=
      fold_left
        (fun (vehicle : Vehicle'') (passenger : Passenger) =>
           if String.eqb (destination passenger) (geoid vehicle)
           then drop_off_passenger vehicle (passenger_id passenger)
           else vehicle)
        (map snd (map_to_list (vehicle.passengers v))) v in
    if vehicle.has_passengers dropped then Raise SimulationStateError
    else Ok (vehicle.transition dropped vehicle.IDLE)
  else Ok (Some v).

(** [_case_dispatch_trip]; calling [add_passengers] on a None result of
    [transition] would raise AttributeError. *)
Definition _case_dispatch_trip (v : Vehicle'')
    (at_location : AtLocation Passenger Station Base) : result Vehicle'' :=
  if nonempty (requests at_location) && negb (vehicle.has_route v) then
    fold_left
      (fun (acc : result Vehicle'') (request : Request Passenger) =>
         match acc with
         | Raise e => Raise e
         | Ok vehicle =>
             if bool_decide (dispatched_vehicle request
                             = Some (vehicle.id vehicle))
                && vehicle.can_transition vehicle vehicle.SERVICING_TRIP
             then
               match vehicle.transition vehicle vehicle.SERVICING_TRIP with
               | None => Raise AttributeError
               | Some transitioned =>
                   Ok (add_passengers passenger_id add_vehicle_id
                         transitioned (passengers request))
               end
             else Ok vehicle
         end)
      (requests at_location) (Ok v)
  else Ok v.

(** [_case_dispatch_station]: the body is [pass]. *)
Definition _case_dispatch_station (v : Vehicle'')
    (at_location : AtLocation Passenger Station Base) : Vehicle'' :=
  v.

Definition _case_dispatch_base (v : Vehicle'')
    (at_location : AtLocation Passenger Station Base) : option Vehicle'' :=
  if nonempty (bases at_location)
     && vehicle.can_transition v vehicle.RESERVE_BASE
     && negb (vehicle.has_route v)
  then vehicle.transition v vehicle.RESERVE_BASE
  else Some v.

Definition _case_repositioning (v : Vehicle'') : option Vehicle'' :=
  if negb (vehicle.has_route v) then vehicle.transition v vehicle.IDLE
  else Some v.

Definition _default (v : Vehicle'') : Vehicle'' := v.

End TerminalStateSwitchCase.

Arguments geoid {_ _ _ _}.
Arguments _case_serving_trip {_ _ _ _}.
Arguments _case_dispatch_trip {_ _ _ _ _ _}.
Arguments _case_dispatch_station {_ _ _ _ _ _}.
Arguments _case_dispatch_base {_ _ _ _ _ _}.
Arguments _case_repositioning {_ _ _ _}.

(** A state to build: the ids it holds; adding an id twice is an error
    that names the id. *)
Definition add_id (s : list string) (k : string) : string + list string :=
  if bool_decide (k ∈ s) then inl k else inr (s ++ [k]).

Definition build_ids (vehicles stations bases : list (Entity string string string Z))
  : list string * list string :=
  initial_simulation_state (fun (_ : unit) (_ _ _ : Z) => [])
    add_id add_id add_id (fun x : Z => "not an entity"%string)
    tt vehicles stations bases 0 1 15.

(** Riders with a destination: id, destination, vehicle. *)
Definition traveller : Type := (string * string * option string)%type.

Definition traveller_id (p : traveller) : string := fst (fst p).
Definition traveller_destination (p : traveller) : string := snd (fst p).
Definition traveller_board (p : traveller) (vid : string) : traveller :=
  (fst p, Some vid).

Definition taxi (s : vehicle.VehicleState) (r : list string)
    (p : gmap string traveller)
  : vehicle.Vehicle unit string traveller string :=
  vehicle.mkVehicle "v001" "leaf" "leaf" tt "here" (1 # 2) r s p None 0 0 0.

End simulationstateops.

(** ** hive/dispatcher.py, the search for a plug *)

Module dispatcher_plugs.

(** What [_find_closest_plug] returns or raises.  [OutOfFuel] belongs to
    the model only: the recursion of the source is bounded here by a
    number of rounds. *)
Inductive search_result (A : Type) : Type :=
| Found (a : A)
| NotImplementedError
| UnboundLocalError
| OutOfFuel.

Arguments Found {A} a.
Arguments NotImplementedError {A}.
Arguments UnboundLocalError {A}.
Arguments OutOfFuel {A}.

Section ClosestPlug.

(** Distances are Python floats; the number type is left open. *)
Variable num : Type.
Variable ltb : num -> num -> bool.

(** The constant [INF = 1000000000] of the source, as a number. *)
Variable INF : num.

(** The attributes of a station or base, and of the vehicle, that the
    search reads. *)
Record FuelStation : Type := mkFuelStation {
  ID : Z;
  X : num;
  Y : num;
  avail_plugs : Z
}.

Record Vehicle : Type := mkVehicle {
  x : num;
  y : num;
  RN_SCALING_FACTOR : num
}.

(** [hlp.estimate_vmt_latlon(x, y, X, Y, scaling_factor)] *)
Variable estimate_vmt_latlon : num -> num -> num -> num -> num -> num.

Definition dist_mi (vehicle : Vehicle) (station : FuelStation) : num :=
  estimate_vmt_latlon (x vehicle) (y vehicle) (X station) (Y station)
    (RN_SCALING_FACTOR vehicle).

(** The loop of [recursive_search]: [dist_to_nearest] and [nearest], which
    is unbound until a station is nearer than INF. *)
Definition scan (vehicle : Vehicle) (search_space : list FuelStation)
  : num * option FuelStation :=
  fold_left
    (fun (acc : num * option FuelStation) (station : FuelStation) =>
       let dist_mi := dist_mi vehicle station in
       if ltb dist_mi (fst acc) then (dist_mi, Some station) else acc)
    search_space (INF, None).

(** [s for s in search_space if s.ID != nearest.ID] *)
Definition without (nearest : FuelStation) (search_space : list FuelStation)
  : list FuelStation :=
  List.filter (fun s => negb (ID s =? ID nearest)) search_space.

(** [recursive_search], with the number of rounds left. *)
Fixpoint recursive_search (fuel : nat) (vehicle : Vehicle)
    (search_space : list FuelStation) : search_result FuelStation :=
  match fuel with
  | O => OutOfFuel
  | S fuel =>
      if (Z.of_nat (length search_space) <? 1) then NotImplementedError
      else
        match snd (scan vehicle search_space) with
        | None => UnboundLocalError
        | Some nearest =>
            if avail_plugs nearest <? 1 then
              let search_space := without nearest search_space in
              recursive_search fuel vehicle search_space
            else Found nearest
        end
  end.

(** [_find_closest_plug]; a [type] other than 'station' and 'base' leaves
    [network] unbound.  Each round of the search drops a station, so one
    round more than there are stations is enough. *)
Definition _find_closest_plug (stations bases : list FuelStation)
    (vehicle : Vehicle) (type : string) : search_result FuelStation :=
  if String.eqb type "station" then
    recursive_search (S (length stations)) vehicle stations
  else if String.eqb type "base" then
    recursive_search (S (length bases)) vehicle bases
  else UnboundLocalError.

End ClosestPlug.

Arguments mkFuelStation {_}.
Arguments ID {_}.
Arguments X {_}.
Arguments Y {_}.
Arguments avail_plugs {_}.
Arguments mkVehicle {_}.
Arguments x {_}.
Arguments y {_}.
Arguments RN_SCALING_FACTOR {_}.
Arguments dist_mi {_}.
Arguments scan {_}.
Arguments without {_}.
Arguments recursive_search {_}.
Arguments _find_closest_plug {_}.

(** The search on rationals, with the city-block distance scaled by the
    vehicle's factor. *)
Definition scaled_city_block (vx vy sx sy scaling : Q) : Q :=
  ((Qabs (vx - sx) + Qabs (vy - sy)) * scaling)%Q.

Definition find_plug_Q (stations bases : list (FuelStation Q))
    (vehicle : Vehicle Q) (type : string) : search_result (FuelStation Q) :=
  _find_closest_plug dispatcher.Qltb 1000000000%Q scaled_city_block
    stations bases vehicle type.

(** Three stations at 1, 2 and 5 miles from the origin; only the last two
    have a free plug. *)
Definition sample_stations : list (FuelStation Q) :=
  [ mkFuelStation 1 1%Q 0%Q 0;
    mkFuelStation 2 5%Q 0%Q 3;
    mkFuelStation 3 2%Q 0%Q 1 ].

Definition at_origin : Vehicle Q := mkVehicle 0%Q 0%Q 1%Q.

End dispatcher_plugs.

(** * Properties *)

(** ** The vehicle's transition function *)

Module vehicle_facts.

Import vehicle.

Section Transition.

Context {EnergySource Link Passenger Charger : Type}.

Implicit Types v : Vehicle EnergySource Link Passenger Charger.
Implicit Types s : VehicleState.

Lemma transition_same v : transition v (vehicle_state v) = Some v.
Proof.
  unfold transition. cbn zeta.
  destruct (decide (vehicle_state v = vehicle_state v)) as [_ | Hne];
    [reflexivity | contradiction].
Qed.

Lemma transition_refused v s :
  vehicle_state v <> s -> can_transition v s = false -> transition v s = None.
Proof.
  intros Hne Hcan. unfold transition. cbn zeta.
  destruct (decide (vehicle_state v = s)); [contradiction |].
  rewrite Hcan. reflexivity.
Qed.

Lemma can_transition_out_of_service v s :
  vehicle_state v = OUT_OF_SERVICE -> can_transition v s = false.
Proof.
  intros Hoos. unfold can_transition.
  destruct (decide (vehicle_state v = s)); [reflexivity |].
  destruct (decide (vehicle_state v = OUT_OF_SERVICE));
    [reflexivity | contradiction].
Qed.

Lemma can_transition_with_passengers v s :
  has_passengers v = true -> can_transition v s = false.
Proof.
  intros Hp. unfold can_transition.
  destruct (decide (vehicle_state v = s)); [reflexivity |].
  destruct (decide (vehicle_state v = OUT_OF_SERVICE)); [reflexivity |].
  rewrite Hp. reflexivity.
Qed.

Lemma can_transition_free v s :
  vehicle_state v <> s -> vehicle_state v <> OUT_OF_SERVICE ->
  has_passengers v = false -> can_transition v s = true.
Proof.
  intros Hne Hoos Hp. unfold can_transition.
  destruct (decide (vehicle_state v = s)); [contradiction |].
  destruct (decide (vehicle_state v = OUT_OF_SERVICE)); [contradiction |].
  rewrite Hp. reflexivity.
Qed.

(** A successful transition to another state went through
    [can_transition]. *)
Lemma transition_some_can v s v' :
  vehicle_state v <> s -> transition v s = Some v' ->
  can_transition v s = true.
Proof.
  intros Hne Ht. destruct (can_transition v s) eqn:Hcan; [reflexivity |].
  rewrite (transition_refused v s Hne Hcan) in Ht. discriminate.
Qed.

(** C4. Transition to the vehicle's current state returns the vehicle
    unchanged; from OutOfService, transition to any other state returns
    None; with one or more passengers aboard, transition to any other
    state returns None. *)
Theorem transition_rules :
  (forall v, transition v (vehicle_state v) = Some v) /\
  (forall v s,
      vehicle_state v = OUT_OF_SERVICE -> s <> OUT_OF_SERVICE ->
      transition v s = None) /\
  (forall v s,
      has_passengers v = true -> s <> vehicle_state v ->
      transition v s = None).
Proof.
  split; [exact transition_same |]. split.
  - intros v s Hoos Hs. apply transition_refused.
    + congruence.
    + apply can_transition_out_of_service, Hoos.
  - intros v s Hp Hs. apply transition_refused.
    + congruence.
    + apply can_transition_with_passengers, Hp.
Qed.

(** C10. A vehicle without passengers that is not OutOfService goes to
    OutOfService with an empty route; every other field but the state
    keeps its value, charger_intent and idle_time_seconds included. *)
Theorem transition_out_of_service_frame v :
  has_passengers v = false ->
  vehicle_state v <> OUT_OF_SERVICE ->
  transition v OUT_OF_SERVICE =
    Some (mkVehicle (id v) (powertrain_id v) (powercurve_id v)
            (energy_source v) (link v) (operating_cost_km v)
            [] OUT_OF_SERVICE (passengers v) (charger_intent v)
            (balance v) (idle_time_seconds v) (distance_traveled_km v)).
Proof.
  intros Hp Hoos. unfold transition. cbn zeta.
  destruct (decide (vehicle_state v = OUT_OF_SERVICE)); [contradiction |].
  rewrite (can_transition_free v OUT_OF_SERVICE Hoos Hoos Hp).
  destruct (decide (OUT_OF_SERVICE = OUT_OF_SERVICE)); [| contradiction].
  reflexivity.
Qed.

(** C5, amended. From ChargingStation, ChargingBase or DispatchStation, a
    successful transition to a different state that is neither a charging
    state nor OutOfService returns a vehicle whose charger_intent is
    None. *)
Theorem interrupted_charge_clears_intent v s v' :
  vehicle_state v = CHARGING_STATION \/
  vehicle_state v = CHARGING_BASE \/
  vehicle_state v = DISPATCH_STATION ->
  from_vehicle_state s <> CHARGE ->
  s <> OUT_OF_SERVICE ->
  s <> vehicle_state v ->
  transition v s = Some v' ->
  charger_intent v' = None.
Proof.
  intros Hprev Hcat Hoos Hne Ht.
  assert (Hne' : vehicle_state v <> s) by congruence.
  pose proof (transition_some_can v s v' Hne' Ht) as Hcan.
  unfold transition in Ht. cbn zeta in Ht.
  destruct (decide (vehicle_state v = s)); [contradiction |].
  rewrite Hcan in Ht.
  destruct (decide (s = OUT_OF_SERVICE)); [contradiction |].
  destruct (decide (vehicle_state v = IDLE)) as [Hidle | _].
  { destruct Hprev as [H | [H | H]]; congruence. }
  rewrite (bool_decide_eq_true_2 (from_vehicle_state s <> CHARGE) Hcat) in Ht.
  rewrite !andb_true_r in Ht.
  destruct Hprev as [H | [H | H]]; rewrite H in Ht; cbn in Ht;
    inversion Ht; reflexivity.
Qed.

End Transition.

(** Witness for C4: a self transition of an idle vehicle, a vehicle out of
    service asked to idle, and a vehicle on a trip with a passenger aboard
    asked to idle. *)
Lemma transition_rules_witness :
  transition (sample IDLE [] ∅ None 0) IDLE = Some (sample IDLE [] ∅ None 0) /\
  transition (sample OUT_OF_SERVICE [] ∅ None 0) IDLE = None /\
  transition (sample SERVICING_TRIP ["a"] {[ "p1" := 1%nat ]} None 0) IDLE
    = None.
Proof.
  destruct (@transition_rules unit string nat string) as [Hself [Hoos Hpass]].
  split; [exact (Hself (sample IDLE [] ∅ None 0)) |].
  split.
  - apply Hoos; [reflexivity | discriminate].
  - apply Hpass; [vm_compute; reflexivity | discriminate].
Defined.

(** Witness for C10: an idle vehicle with a route, a charger intent and
    120 seconds of idling runs out of energy. *)
Lemma transition_out_of_service_frame_witness :
  transition (sample IDLE ["a"; "b"] ∅ (Some "DCFC") 120) OUT_OF_SERVICE =
    Some (sample OUT_OF_SERVICE [] ∅ (Some "DCFC") 120).
Proof.
  apply (transition_out_of_service_frame
           (sample IDLE ["a"; "b"] ∅ (Some "DCFC") 120)).
  - vm_compute; reflexivity.
  - discriminate.
Defined.

(** C5 as stated fails: a vehicle charging at a station that runs out of
    service keeps its charger intent, although OutOfService is no charging
    state and the transition succeeds. *)
Lemma charging_to_out_of_service_keeps_intent :
  vehicle_state (sample CHARGING_STATION [] ∅ (Some "DCFC") 0)
    = CHARGING_STATION /\
  from_vehicle_state OUT_OF_SERVICE <> CHARGE /\
  transition (sample CHARGING_STATION [] ∅ (Some "DCFC") 0) OUT_OF_SERVICE
    = Some (sample OUT_OF_SERVICE [] ∅ (Some "DCFC") 0) /\
  charger_intent (sample OUT_OF_SERVICE [] ∅ (Some "DCFC") 0) <> None.
Proof.
  split; [reflexivity |]. split; [discriminate |].
  split; [vm_compute; reflexivity | discriminate].
Qed.

(** Witness for the amended C5: a vehicle on its way to a station is sent
    to reposition. *)
Lemma interrupted_charge_clears_intent_witness :
  transition (sample DISPATCH_STATION ["a"] ∅ (Some "DCFC") 0) REPOSITIONING
    = Some (sample REPOSITIONING ["a"] ∅ None 0) /\
  charger_intent (sample REPOSITIONING ["a"] ∅ None 0) = None.
Proof.
  split; [vm_compute; reflexivity |].
  apply (interrupted_charge_clears_intent
           (sample DISPATCH_STATION ["a"] ∅ (Some "DCFC") 0) REPOSITIONING).
  - right; right; reflexivity.
  - discriminate.
  - discriminate.
  - discriminate.
  - vm_compute; reflexivity.
Defined.

End vehicle_facts.

(** ** The update pipeline *)

Module step_simulation_facts.

Import step_simulation.

Section Pipeline.

Context {Vehicle Station Base Request RoadNetwork : Type}.
Context {Environment Instruction Dispatcher : Type}.

Abbreviation State :=
  (SimulationState Vehicle Station Base Request RoadNetwork).

Variable step_vehicle : State -> string -> Environment -> option State.
Variable apply_instruction : Instruction -> State -> option State.
Variable generate_instructions :
  Dispatcher -> State -> Environment -> Dispatcher * list Instruction.

Lemma same_clock_refl (a : State) : same_clock a a.
Proof. split; reflexivity. Qed.

Lemma same_clock_trans (a b c : State) :
  same_clock a b -> same_clock b c -> same_clock a c.
Proof. intros [H1 H2] [H3 H4]. split; congruence. Qed.

Lemma apply_instructions_clock s0 instructions :
  instructions_keep_clock apply_instruction ->
  forall s, same_clock s0 s ->
  same_clock s0
    (fold_left (_add_instruction apply_instruction s0) instructions s).
Proof.
  intros Hkeep. induction instructions as [| i rest IH]; intros s Hs.
  - exact Hs.
  - cbn [fold_left]. apply IH. unfold _add_instruction.
    destruct (apply_instruction i s) as [s' |] eqn:Hi.
    + eapply same_clock_trans; [exact Hs | exact (Hkeep i s s' Hi)].
    + apply same_clock_refl.
Qed.

Lemma step_fold_clock s0 env vids :
  steps_keep_clock step_vehicle env ->
  forall s, same_clock s0 s ->
  same_clock s0 (fold_left (_step_vehicle step_vehicle s0 env) vids s).
Proof.
  intros Hkeep. induction vids as [| vid rest IH]; intros s Hs.
  - exact Hs.
  - cbn [fold_left]. apply IH. unfold _step_vehicle.
    destruct (step_vehicle s vid env) as [s' |] eqn:Hv.
    + eapply same_clock_trans; [exact Hs | exact (Hkeep s vid s' Hv)].
    + apply same_clock_refl.
Qed.

(** The fold of [apply_instructions] splits at any instruction. *)
Lemma apply_instructions_app s0 pre post :
  apply_instructions apply_instruction s0 (pre ++ post) =
  fold_left (_add_instruction apply_instruction s0) post
    (apply_instructions apply_instruction s0 pre).
Proof. unfold apply_instructions. apply fold_left_app. Qed.

(** An instruction that fails sends the fold back to the state
    [apply_instructions] was called with: what the instructions before it
    did is gone. *)
Lemma apply_instructions_restart s0 pre i post :
  apply_instruction i (apply_instructions apply_instruction s0 pre) = None ->
  apply_instructions apply_instruction s0 (pre ++ i :: post) =
  apply_instructions apply_instruction s0 post.
Proof.
  intros Hfail. rewrite apply_instructions_app. cbn [fold_left].
  unfold _add_instruction at 2. rewrite Hfail. reflexivity.
Qed.

(** The logged fold and the plain fold walk together. *)
Lemma step_logged_fold s0 env vids :
  forall s log,
  fold_left (_step_vehicle_logged step_vehicle s0 env) vids (s, log) =
  (fold_left (_step_vehicle step_vehicle s0 env) vids s, log ++ vids).
Proof.
  induction vids as [| vid rest IH]; intros s log.
  - cbn. rewrite app_nil_r. reflexivity.
  - cbn [fold_left]. unfold _step_vehicle_logged at 2. cbn [fst snd].
    rewrite IH, <- app_assoc. reflexivity.
Qed.

Lemma step_simulation_logged_spec s env :
  step_simulation_logged step_vehicle s env =
  (step_simulation step_vehicle s env, vehicles_keys s).
Proof.
  unfold step_simulation_logged, step_simulation. cbn zeta.
  rewrite step_logged_fold. reflexivity.
Qed.

(** C2. One call of [update] ticks once, after the instructions were
    applied and the vehicles stepped: the state it returns is [tick] of a
    state that still shows the input's clock, and its sim_time is the
    input's plus the timestep duration. *)
Theorem update_advances_sim_time self s env :
  instructions_keep_clock apply_instruction ->
  steps_keep_clock step_vehicle env ->
  (exists next_state,
      simulation_state
        (fst (update step_vehicle apply_instruction generate_instructions
                self s env)) = tick next_state /\
      same_clock s next_state) /\
  sim_time
    (simulation_state
       (fst (update step_vehicle apply_instruction generate_instructions
               self s env)))
  = sim_time s + sim_timestep_duration_seconds s.
Proof.
  intros Hi Hv. unfold update.
  destruct (generate_instructions (dispatcher self) s env)
    as [updated_dispatcher instructions].
  cbn [fst simulation_state]. unfold step_simulation. cbn zeta.
  set (sim_with_instructions :=
         apply_instructions apply_instruction s instructions).
  set (next_state := fold_left _ _ sim_with_instructions).
  assert (Hclock : same_clock s next_state).
  { eapply same_clock_trans.
    - apply (apply_instructions_clock s instructions Hi s (same_clock_refl s)).
    - apply step_fold_clock; [exact Hv | apply same_clock_refl]. }
  split.
  - exists next_state. split; [reflexivity | exact Hclock].
  - destruct Hclock as [Ht Hd]. cbn. rewrite Ht, Hd. reflexivity.
Qed.

(** C3, amended. The Step phase calls [step_vehicle] once for each vehicle
    id, in the order in which the keys of the vehicles map iterate; the
    log changes nothing in the state returned. *)
Theorem step_order_is_map_order s env :
  snd (step_simulation_logged step_vehicle s env) = vehicles_keys s /\
  fst (step_simulation_logged step_vehicle s env)
  = step_simulation step_vehicle s env.
Proof. rewrite step_simulation_logged_spec. split; reflexivity. Qed.

(** C6, amended. A vehicle step that returns None is absorbed: the
    vehicles after it are stepped all the same, each once and in order,
    and the tick is completed. *)
Theorem step_failure_is_absorbed s env pre vid post :
  vehicles_keys s = pre ++ vid :: post ->
  step_vehicle (fold_left (_step_vehicle step_vehicle s env) pre s) vid env
  = None ->
  snd (step_simulation_logged step_vehicle s env) = pre ++ vid :: post /\
  exists resumed,
    step_simulation step_vehicle s env =
    tick (fold_left (_step_vehicle step_vehicle s env) post resumed).
Proof.
  intros Hkeys Hfail. rewrite step_simulation_logged_spec. cbn [snd].
  split; [exact Hkeys |].
  exists (_step_vehicle step_vehicle s env
            (fold_left (_step_vehicle step_vehicle s env) pre s) vid).
  unfold step_simulation. cbn zeta. rewrite Hkeys, fold_left_app.
  reflexivity.
Qed.

End Pipeline.

Lemma fleet_instructions_keep_clock :
  instructions_keep_clock apply_fleet_instruction.
Proof.
  intros i s s' H. destruct i as [vid |]; cbn in H; [| discriminate].
  destruct (get_soc vid (vehicles s)); [| discriminate].
  inversion H. split; reflexivity.
Qed.

Lemma drain_keeps_clock env : steps_keep_clock drain_vehicle env.
Proof.
  intros s vid s' H. unfold drain_vehicle in H.
  destruct (get_soc vid (vehicles s)) as [soc |]; [| discriminate].
  destruct (soc <? env); [discriminate |].
  inversion H. split; reflexivity.
Qed.

(** C1 fails on the code.  The first instruction recharges v001 from 40 to
    100 percent, the second one is refused: the state returned is the
    initial one, the recharge is lost. *)
Theorem failed_instruction_discards_earlier_ones :
  apply_fleet_instruction (Recharge "v001") (fleet 0 [("v001", 40)])
    = Some (fleet 0 [("v001", 100)]) /\
  apply_fleet_instruction Inadmissible (fleet 0 [("v001", 100)]) = None /\
  apply_instructions apply_fleet_instruction (fleet 0 [("v001", 40)])
    [Recharge "v001"; Inadmissible]
    = fleet 0 [("v001", 40)].
Proof. repeat split. Qed.

(** Witness for C2: a fleet of two at time 120, one recharge applied and
    one instruction refused, both vehicles stepped. *)
Lemma update_advances_sim_time_witness :
  instructions_keep_clock apply_fleet_instruction /\
  steps_keep_clock drain_vehicle 10 /\
  sim_time
    (simulation_state
       (fst (update drain_vehicle apply_fleet_instruction replay
               (mkStepSimulation [Recharge "v002"; Inadmissible])
               (fleet 120 [("v001", 50); ("v002", 7)]) 10)))
  = 120 + 60.
Proof.
  split; [exact fleet_instructions_keep_clock |].
  split; [exact (drain_keeps_clock 10) |].
  exact (proj2 (update_advances_sim_time drain_vehicle apply_fleet_instruction
                  replay (mkStepSimulation [Recharge "v002"; Inadmissible])
                  (fleet 120 [("v001", 50); ("v002", 7)]) 10
                  fleet_instructions_keep_clock (drain_keeps_clock 10))).
Defined.

(** C3 as stated fails: the vehicles map iterates v002 before v001, and
    that is the order in which the vehicles are stepped. *)
Lemma step_order_not_sorted :
  snd (step_simulation_logged drain_vehicle
         (fleet 0 [("v002", 50); ("v001", 50)]) 10)
    = ["v002"; "v001"] /\
  sorted_ids ["v002"; "v001"] = false.
Proof. split; reflexivity. Qed.

(** C6 as stated fails: v001 has no charge left and its step returns None,
    yet v002 is stepped afterwards (50 to 40 percent) and the tick is
    completed (time 0 to 60). *)
Lemma failed_step_does_not_abort :
  drain_vehicle (fleet 0 [("v001", 0); ("v002", 50)]) "v001" 10 = None /\
  step_simulation_logged drain_vehicle
    (fleet 0 [("v001", 0); ("v002", 50)]) 10
  = (fleet 60 [("v001", 0); ("v002", 40)], ["v001"; "v002"]).
Proof. split; reflexivity. Qed.

(** Witness for the amended C6, on the same fleet. *)
Lemma step_failure_is_absorbed_witness :
  snd (step_simulation_logged drain_vehicle
         (fleet 0 [("v001", 0); ("v002", 50)]) 10)
    = [] ++ "v001" :: ["v002"] /\
  exists resumed,
    step_simulation drain_vehicle (fleet 0 [("v001", 0); ("v002", 50)]) 10 =
    tick (fold_left
            (_step_vehicle drain_vehicle
               (fleet 0 [("v001", 0); ("v002", 50)]) 10)
            ["v002"] resumed).
Proof.
  apply (step_failure_is_absorbed drain_vehicle
           (fleet 0 [("v001", 0); ("v002", 50)]) 10 [] "v001" ["v002"]);
    reflexivity.
Defined.

End step_simulation_facts.

(** ** The reporter's buffer *)

Module reporter_facts.

Import reporter.

Section Flush.

Context {Report Handler RunnerPayload : Type}.
Variable sim_time : RunnerPayload -> Z.

Implicit Types self : Reporter Report Handler.
Implicit Types p : RunnerPayload.

(** The two ways [flush] returns. *)
Lemma flush_due self p :
  log_period_seconds (config self) <> 0 ->
  sim_time p mod log_period_seconds (config self) = 0 ->
  flush sim_time self p =
    Returned
      (mkReporter (config self) [] (handlers self),
       map (fun h => handle h (reports self) p) (handlers self)).
Proof.
  intros Hperiod Hmod. unfold flush.
  destruct (Z.eqb_spec (log_period_seconds (config self)) 0) as [H0 | _];
    [contradiction |].
  rewrite Hmod. reflexivity.
Qed.

Lemma flush_not_due self p :
  log_period_seconds (config self) <> 0 ->
  sim_time p mod log_period_seconds (config self) <> 0 ->
  flush sim_time self p = Returned (self, []).
Proof.
  intros Hperiod Hmod. unfold flush.
  destruct (Z.eqb_spec (log_period_seconds (config self)) 0) as [H0 | _];
    [contradiction |].
  destruct (Z.eqb_spec (sim_time p mod log_period_seconds (config self)) 0)
    as [H0 | _]; [contradiction |].
  reflexivity.
Qed.

(** C9. For a log period other than 0: when sim_time is an integer
    multiple of log_period_seconds, [flush] hands the buffered reports to
    every handler, in order, and leaves an empty buffer; at any other
    sim_time it calls no handler and leaves the reporter as it was. *)
Theorem flush_exactly_on_period self p :
  log_period_seconds (config self) <> 0 ->
  ((exists k, sim_time p = k * log_period_seconds (config self)) ->
   flush sim_time self p =
     Returned
       (mkReporter (config self) [] (handlers self),
        map (fun h => handle h (reports self) p) (handlers self))) /\
  (~ (exists k, sim_time p = k * log_period_seconds (config self)) ->
   flush sim_time self p = Returned (self, [])).
Proof.
  intros Hperiod. split.
  - intros [k Hk]. apply flush_due; [exact Hperiod |].
    rewrite Hk. apply Z_mod_mult.
  - intros Hno. apply flush_not_due; [exact Hperiod |].
    intros Hmod. apply Hno.
    exists (sim_time p / log_period_seconds (config self)).
    pose proof (Z_div_mod_eq_full (sim_time p)
                  (log_period_seconds (config self))) as Hdiv.
    rewrite Hmod in Hdiv. lia.
Qed.

End Flush.

(** Witness for C9: the reporter that logs every minute, at 120 seconds
    (two periods) and at 90 seconds. *)
Lemma flush_exactly_on_period_witness :
  log_period_seconds (config minute_reporter) <> 0 /\
  flush (fun t : Z => t) minute_reporter 120 =
    Returned
      (mkReporter (mkGlobalConfig 60) [] ["csv"; "stats"],
       [handle "csv" ["dispatch"; "charge"] 120;
        handle "stats" ["dispatch"; "charge"] 120]) /\
  flush (fun t : Z => t) minute_reporter 90 = Returned (minute_reporter, []).
Proof.
  assert (Hperiod : log_period_seconds (config minute_reporter) <> 0)
    by discriminate.
  split; [exact Hperiod |].
  destruct (flush_exactly_on_period (fun t : Z => t) minute_reporter 120
              Hperiod) as [Hdue _].
  destruct (flush_exactly_on_period (fun t : Z => t) minute_reporter 90
              Hperiod) as [_ Hnot].
  split.
  - apply Hdue. exists 2. reflexivity.
  - apply Hnot. intros [k Hk]. cbn in Hk. lia.
Defined.

End reporter_facts.

(** ** Request-vehicle matching *)

Module dispatcher_facts.

Import dispatcher.

Lemma in_firstn {A : Type} (a : A) (n : nat) (l : list A) :
  In a (firstn n l) -> In a l.
Proof.
  revert l. induction n as [| n IH]; intros [| b l] H; cbn in H;
    try contradiction.
  destruct H as [H | H]; [left; exact H | right; apply IH, H].
Qed.

Lemma mask_at_and (a b : list bool) (i : nat) :
  mask_at (mask_and a b) i = true ->
  mask_at a i = true /\ mask_at b i = true.
Proof.
  unfold mask_at. revert b i.
  induction a as [| p a IH]; intros [| q b] [| i] H; cbn in H;
    try discriminate.
  - apply andb_true_iff in H. exact H.
  - cbn. apply IH, H.
Qed.

(** The entry of a row in a mask computed from the rows and a value
    derived from each row. *)
Lemma mask_at_rows {A B : Type} (f : A * B -> bool) (g : A -> B)
    (rows : list A) (i : nat) (row : A) :
  nth_error rows i = Some row ->
  mask_at (map f (combine rows (map g rows))) i = f (row, g row).
Proof.
  unfold mask_at. revert i.
  induction rows as [| r rows IH]; intros [| i] H; cbn in H;
    try discriminate.
  - inversion H. reflexivity.
  - cbn. apply IH, H.
Qed.

Section Matching.

Variable num : Type.
Variables (add sub mul div : num -> num -> num).
Variables (ltb gtb geb eqb : num -> num -> bool).
Variable one : num.
Variable KILOMETERS_TO_MILES : num.
Variable haversine : num -> num -> num * num -> num.

(** Every vehicle returned passed the soc mask. *)
Lemma best_vehicles_pass_soc ENV fleet_state request n i :
  In i (_get_n_best_vehicles add sub mul div ltb gtb geb eqb one
          KILOMETERS_TO_MILES haversine ENV fleet_state request n) ->
  mask_at
    (min_soc_mask add sub mul div gtb ENV request fleet_state
       (distances mul KILOMETERS_TO_MILES haversine fleet_state request)) i
  = true.
Proof.
  unfold _get_n_best_vehicles. cbn zeta. intros Hin.
  apply in_firstn, filter_In in Hin. destruct Hin as [_ Hmask].
  apply mask_at_and in Hmask. destruct Hmask as [Hmask _].
  apply mask_at_and in Hmask. destruct Hmask as [_ Hsoc]. exact Hsoc.
Qed.

(** C8. A vehicle whose soc, less the soc that the dispatch leg and the
    trip leg consume, does not exceed the minimum allowed soc is in no
    answer of the matching, whatever its distance to the request. *)
Theorem insufficient_soc_is_excluded ENV fleet_state request n i row :
  nth_error fleet_state i = Some row ->
  gtb (soc_after_trip add sub mul div request row
         (dispatch_miles mul KILOMETERS_TO_MILES haversine request row))
    (MIN_ALLOWED_SOC ENV) = false ->
  ~ In i (_get_n_best_vehicles add sub mul div ltb gtb geb eqb one
            KILOMETERS_TO_MILES haversine ENV fleet_state request n).
Proof.
  intros Hrow Hsoc Hin. apply best_vehicles_pass_soc in Hin.
  unfold min_soc_mask, distances in Hin.
  rewrite (mask_at_rows _ _ fleet_state i row Hrow) in Hin.
  cbn [fst snd] in Hin. unfold dispatch_miles in Hsoc.
  rewrite Hsoc in Hin. discriminate.
Qed.

End Matching.

(** Witness for C8, scenario S5: vehicle 0 is the nearest one (1 mile
    against 4), its soc after the trip would be below the minimum, and the
    matching answers with vehicle 1. *)
Lemma insufficient_soc_is_excluded_witness :
  distances_Q s5_fleet s5_request = [1%Q; 4%Q] /\
  best_vehicles_Q s5_env s5_fleet s5_request 1 = [1%nat] /\
  ~ In 0%nat (best_vehicles_Q s5_env s5_fleet s5_request 1).
Proof.
  split; [vm_compute; reflexivity |].
  split; [vm_compute; reflexivity |].
  apply (insufficient_soc_is_excluded Q Qplus Qminus Qmult Qdiv Qltb Qgtb
           Qgeb Qeq_bool 1%Q 1%Q city_block s5_env s5_fleet s5_request 1 0
           (mkFleetRow 1%Q 0%Q 1%Q 1%Q (10 # 100) 0%Q 4%Q (3 # 10) 50%Q)).
  - reflexivity.
  - vm_compute; reflexivity.
Defined.

End dispatcher_facts.

(** ** The charging fleet manager *)

Module charging_fleet_manager_facts.

Import charging_fleet_manager.

Lemma in_insert_by_id (v w : Vehicle) (vs : list Vehicle) :
  In w (insert_by_id v vs) <-> w = v \/ In w vs.
Proof.
  induction vs as [| u vs IH]; cbn.
  - intuition congruence.
  - destruct (String.leb (id v) (id u)); cbn; [intuition congruence |].
    rewrite IH. intuition congruence.
Qed.

Lemma in_sort_by_id (w : Vehicle) (vs : list Vehicle) :
  In w (sort_by_id vs) <-> In w vs.
Proof.
  unfold sort_by_id. induction vs as [| v vs IH]; cbn; [tauto |].
  rewrite in_insert_by_id, IH. intuition congruence.
Qed.

(** A filter that raises on no vehicle keeps exactly the vehicles it
    answers True for. *)
Lemma filter_raising_total (f : Vehicle -> option bool) (vs : list Vehicle) :
  (forall v, In v vs -> is_Some (f v)) ->
  exists kept,
    filter_raising f vs = Some kept /\
    forall v, In v kept <-> In v vs /\ f v = Some true.
Proof.
  induction vs as [| u vs IH]; intros Htotal.
  - exists []. split; [reflexivity |]. cbn. tauto.
  - destruct IH as [kept [Hkept Hin]].
    { intros v Hv. apply Htotal. right. exact Hv. }
    destruct (Htotal u (or_introl eq_refl)) as [keep Hu].
    cbn. rewrite Hu, Hkept. destruct keep.
    + exists (u :: kept). split; [reflexivity |]. intros v. cbn.
      rewrite Hin. split.
      * intros [-> | [H1 H2]]; [split; [left; reflexivity | exact Hu] |].
        split; [right; exact H1 | exact H2].
      * intros [[-> | H1] H2]; [left; reflexivity | right; split; assumption].
    + exists kept. split; [reflexivity |]. intros v. rewrite Hin. cbn.
      split.
      * intros [H1 H2]. split; [right; exact H1 | exact H2].
      * intros [[-> | H1] H2]; [congruence | split; assumption].
Qed.

Lemma get_vehicles_total (s : SimulationState) (f : Vehicle -> option bool) :
  (forall v, In v (map snd (step_simulation.vehicles s)) -> is_Some (f v)) ->
  exists kept,
    get_vehicles s f = Some kept /\
    forall v,
      In v kept <->
      In v (map snd (step_simulation.vehicles s)) /\ f v = Some true.
Proof.
  intros Htotal. unfold get_vehicles.
  destruct (filter_raising_total f
              (sort_by_id (map snd (step_simulation.vehicles s))))
    as [kept [Hkept Hin]].
  { intros v Hv. apply Htotal, in_sort_by_id, Hv. }
  exists kept. split; [exact Hkept |]. intros v.
  rewrite Hin, in_sort_by_id. reflexivity.
Qed.

(** The two filters decide the two conditions of the claim. *)
Lemma charge_candidate_true env v m :
  mechatronics env !! mechatronics_id v = Some m ->
  charge_candidate env v = Some true <-> low_range env m v.
Proof.
  intros Hm. unfold charge_candidate, low_range. cbn zeta. rewrite Hm.
  destruct (decide (vehicle_state v = Idle)) as [Hi | Hi];
    destruct (decide (vehicle_state v = Repositioning)) as [Hr | Hr];
    rewrite ?(bool_decide_eq_true_2 _ Hi), ?(bool_decide_eq_false_2 _ Hi),
      ?(bool_decide_eq_true_2 _ Hr), ?(bool_decide_eq_false_2 _ Hr); cbn.
  1-3: rewrite <- Qle_bool_iff; split;
    [ intros H; inversion H as [H']; rewrite H'; tauto
    | intros [_ H]; rewrite H; reflexivity ].
  split; [discriminate | tauto].
Qed.

Lemma stop_charge_candidate_true self env v m :
  mechatronics env !! mechatronics_id v = Some m ->
  stop_charge_candidate self env v = Some true <-> charged_enough self m v.
Proof.
  intros Hm. unfold stop_charge_candidate, charged_enough. cbn zeta.
  rewrite Hm.
  destruct (decide (vehicle_state v = ChargingStation)) as [Hc | Hc];
    rewrite ?(bool_decide_eq_true_2 _ Hc), ?(bool_decide_eq_false_2 _ Hc);
    cbn.
  - rewrite <- Qle_bool_iff. split;
      [ intros H; inversion H as [H']; rewrite H'; tauto
      | intros [_ H]; rewrite H; reflexivity ].
  - split; [discriminate | tauto].
Qed.

Lemma charge_candidate_answers env v :
  is_Some (mechatronics env !! mechatronics_id v) ->
  is_Some (charge_candidate env v).
Proof.
  intros [m Hm]. unfold charge_candidate. cbn zeta. rewrite Hm.
  destruct (negb _); eexists; reflexivity.
Qed.

Lemma stop_charge_candidate_answers self env v :
  is_Some (mechatronics env !! mechatronics_id v) ->
  is_Some (stop_charge_candidate self env v).
Proof.
  intros [m Hm]. unfold stop_charge_candidate. cbn zeta. rewrite Hm.
  destruct (negb _); eexists; reflexivity.
Qed.

(** In a fleet where every id occurs once, the id names the vehicle. *)
Lemma unique_id (vs : list Vehicle) (a b : Vehicle) :
  List.NoDup (map id vs) -> In a vs -> In b vs -> id a = id b -> a = b.
Proof.
  induction vs as [| u vs IH]; intros Hnd Ha Hb Hid; [contradiction |].
  cbn in Hnd. apply List.NoDup_cons_iff in Hnd. destruct Hnd as [Hu Hnd].
  destruct Ha as [-> | Ha], Hb as [-> | Hb].
  - reflexivity.
  - exfalso. apply Hu. rewrite Hid. apply in_map, Hb.
  - exfalso. apply Hu. rewrite <- Hid. apply in_map, Ha.
  - apply IH; assumption.
Qed.

Section Generator.

Variable nearest_plug :
  Q -> SimulationState -> Environment -> Q -> string -> Vehicle ->
  string * string.

(** C7. In a fleet whose vehicle ids are distinct and whose vehicles all
    have their mechatronics model in the environment,
    [generate_instructions] emits a dispatch-to-station instruction for a
    vehicle exactly when it is Idle or Repositioning with a remaining
    range at or below charging_range_km_threshold, a sit-idle instruction
    exactly when it is in ChargingStation with a soc at or above
    ideal_fastcharge_soc_limit, and no instruction besides these. *)
Theorem generate_instructions_selects self s env :
  List.NoDup (map id (map snd (step_simulation.vehicles s))) ->
  (forall v, In v (map snd (step_simulation.vehicles s)) ->
             is_Some (mechatronics env !! mechatronics_id v)) ->
  exists instructions filed,
    generate_instructions nearest_plug self s env
    = Some (self, instructions, filed) /\
    (forall v m,
        In v (map snd (step_simulation.vehicles s)) ->
        mechatronics env !! mechatronics_id v = Some m ->
        ((exists station charger,
             In (DispatchStation (id v) station charger) instructions)
         <-> low_range env m v) /\
        (In (SitIdle (id v)) instructions <-> charged_enough self m v)) /\
    (forall i,
        In i instructions ->
        exists v m,
          In v (map snd (step_simulation.vehicles s)) /\
          mechatronics env !! mechatronics_id v = Some m /\
          ((exists station charger,
               i = DispatchStation (id v) station charger /\
               low_range env m v) \/
           (i = SitIdle (id v) /\ charged_enough self m v))).
Proof.
  intros Hids Hmodels.
  destruct (get_vehicles_total s (charge_candidate env))
    as [low [Hlow Hlow_in]].
  { intros v Hv. apply charge_candidate_answers, Hmodels, Hv. }
  destruct (get_vehicles_total s (stop_charge_candidate self env))
    as [high [Hhigh Hhigh_in]].
  { intros v Hv. apply stop_charge_candidate_answers, Hmodels, Hv. }
  unfold generate_instructions. rewrite Hlow, Hhigh. cbn zeta.
  unfold instruct_vehicles_to_dispatch_to_station,
    instruct_vehicles_to_sit_idle.
  rewrite !firstn_all.
  eexists. eexists. split; [reflexivity |]. split.
  - intros v m Hv Hm. split; split.
    + intros [station [charger Hin]]. apply in_app_or in Hin.
      destruct Hin as [Hin | Hin]; apply in_map_iff in Hin;
        destruct Hin as [w [Heq Hw]]; [| discriminate].
      inversion Heq as [[Hid Hst Hch]].
      apply Hlow_in in Hw. destruct Hw as [Hw Hcand].
      assert (w = v) as -> by (eapply unique_id; eassumption).
      apply (charge_candidate_true env v m Hm), Hcand.
    + intros Hrange. eexists. eexists. apply in_or_app. left.
      apply in_map_iff. exists v. split; [reflexivity |].
      apply Hlow_in. split; [exact Hv |].
      apply (charge_candidate_true env v m Hm), Hrange.
    + intros Hin. apply in_app_or in Hin.
      destruct Hin as [Hin | Hin]; apply in_map_iff in Hin;
        destruct Hin as [w [Heq Hw]]; [discriminate |].
      inversion Heq as [Hid].
      apply Hhigh_in in Hw. destruct Hw as [Hw Hcand].
      assert (w = v) as -> by (eapply unique_id; eassumption).
      apply (stop_charge_candidate_true self env v m Hm), Hcand.
    + intros Hsoc. apply in_or_app. right.
      apply in_map_iff. exists v. split; [reflexivity |].
      apply Hhigh_in. split; [exact Hv |].
      apply (stop_charge_candidate_true self env v m Hm), Hsoc.
  - intros i Hin. apply in_app_or in Hin.
    destruct Hin as [Hin | Hin]; apply in_map_iff in Hin;
      destruct Hin as [w [Heq Hw]].
    + apply Hlow_in in Hw. destruct Hw as [Hw Hcand].
      destruct (Hmodels w Hw) as [m Hm]. exists w, m.
      split; [exact Hw |]. split; [exact Hm |]. left.
      eexists. eexists. split; [symmetry; exact Heq |].
      apply (charge_candidate_true env w m Hm), Hcand.
    + apply Hhigh_in in Hw. destruct Hw as [Hw Hcand].
      destruct (Hmodels w Hw) as [m Hm]. exists w, m.
      split; [exact Hw |]. split; [exact Hm |]. right.
      split; [symmetry; exact Heq |].
      apply (stop_charge_candidate_true self env w m Hm), Hcand.
Qed.

End Generator.

Lemma sample_ids_distinct :
  List.NoDup (map id (map snd (step_simulation.vehicles sample_sim))).
Proof.
  cbn. repeat constructor; cbn; intuition discriminate.
Qed.

Lemma sample_models_known v :
  In v (map snd (step_simulation.vehicles sample_sim)) ->
  is_Some (mechatronics sample_env !! mechatronics_id v).
Proof.
  cbn. intros [<- | [<- | [<- | [<- | []]]]]; exists linear_model;
    vm_compute; reflexivity.
Qed.

(** The generator run on the sample fleet: v001 idles with 16 km of range
    left and is sent to a station, v003 charges at 90 percent and is told
    to sit idle, v004 is on a dispatch and v002 repositions with range to
    spare. *)
Example generate_instructions_sample :
  generate_instructions only_plug (mkChargingFleetManager sample_config)
    sample_sim sample_env
  = Some (mkChargingFleetManager sample_config,
          [DispatchStation "v001" "s1" "DCFC"; SitIdle "v003"],
          [refuel_search_event "v001"]).
Proof. vm_compute. reflexivity. Qed.

(** Witness for C7, on the sample fleet. *)
Lemma generate_instructions_selects_witness :
  List.NoDup (map id (map snd (step_simulation.vehicles sample_sim))) /\
  (forall v, In v (map snd (step_simulation.vehicles sample_sim)) ->
             is_Some (mechatronics sample_env !! mechatronics_id v)) /\
  exists instructions filed,
    generate_instructions only_plug (mkChargingFleetManager sample_config)
      sample_sim sample_env
    = Some (mkChargingFleetManager sample_config, instructions, filed) /\
    (forall v m,
        In v (map snd (step_simulation.vehicles sample_sim)) ->
        mechatronics sample_env !! mechatronics_id v = Some m ->
        ((exists station charger,
             In (DispatchStation (id v) station charger) instructions)
         <-> low_range sample_env m v) /\
        (In (SitIdle (id v)) instructions
         <-> charged_enough (mkChargingFleetManager sample_config) m v)) /\
    (forall i,
        In i instructions ->
        exists v m,
          In v (map snd (step_simulation.vehicles sample_sim)) /\
          mechatronics sample_env !! mechatronics_id v = Some m /\
          ((exists station charger,
               i = DispatchStation (id v) station charger /\
               low_range sample_env m v) \/
           (i = SitIdle (id v) /\
            charged_enough (mkChargingFleetManager sample_config) m v))).
Proof.
  split; [exact sample_ids_distinct |].
  split; [exact sample_models_known |].
  exact (generate_instructions_selects only_plug
           (mkChargingFleetManager sample_config) sample_sim sample_env
           sample_ids_distinct sample_models_known).
Defined.

End charging_fleet_manager_facts.

(** ** The vehicle's other operations *)

Module vehicle_operations_facts.

Import vehicle vehicle_operations.

Section Transitions.

Context {EnergySource Link Passenger Charger : Type}.

Implicit Types v : Vehicle EnergySource Link Passenger Charger.
Implicit Types s : VehicleState.

Lemma can_transition_true v s :
  can_transition v s = true <->
  vehicle_state v <> s /\ vehicle_state v <> OUT_OF_SERVICE /\
  has_passengers v = false.
Proof.
  unfold can_transition.
  destruct (decide (vehicle_state v = s));
    destruct (decide (vehicle_state v = OUT_OF_SERVICE));
    destruct (has_passengers v); intuition congruence.
Qed.

(** What a transition to another state returns when it is possible. *)
Lemma transition_other v s :
  vehicle_state v <> s -> can_transition v s = true ->
  transition v s =
    Some
      (if decide (s = OUT_OF_SERVICE) then assign_route (modify_state v s) []
       else if decide (vehicle_state v = IDLE)
            then _reset_idle_stats (modify_state v s)
       else if bool_decide (from_vehicle_state (vehicle_state v) = CHARGE)
               && bool_decide (from_vehicle_state s <> CHARGE)
            then _reset_charge_intent (modify_state v s)
       else if bool_decide (vehicle_state v = DISPATCH_STATION)
               && bool_decide (from_vehicle_state s <> CHARGE)
            then _reset_charge_intent (modify_state v s)
       else modify_state v s).
Proof.
  intros Hne Hcan. unfold transition. cbn zeta.
  destruct (decide (vehicle_state v = s)); [contradiction |].
  rewrite Hcan. repeat case_match; reflexivity.
Qed.

Lemma transition_some_iff v s :
  is_Some (transition v s) <->
  vehicle_state v = s \/
  (vehicle_state v <> OUT_OF_SERVICE /\ has_passengers v = false).
Proof.
  destruct (decide (vehicle_state v = s)) as [Heq | Hne].
  - split; [intros _; left; exact Heq |]. intros _. subst s.
    unfold transition. cbn zeta.
    destruct (decide (vehicle_state v = vehicle_state v)); [| contradiction].
    eexists; reflexivity.
  - destruct (can_transition v s) eqn:Hcan.
    + rewrite (transition_other v s Hne Hcan).
      apply can_transition_true in Hcan. destruct Hcan as [_ [H1 H2]].
      split; [intros _; right; split; assumption | intros _; eexists; reflexivity].
    + unfold transition. cbn zeta.
      destruct (decide (vehicle_state v = s)); [contradiction |].
      rewrite Hcan. split.
      * intros [x Hx]. discriminate.
      * intros [Heq | [H1 H2]]; [contradiction |].
        assert (can_transition v s = true) as Hc
          by (apply can_transition_true; auto).
        congruence.
Qed.

(** X1. A transition succeeds exactly when it asks for the state the
    vehicle is in, or the vehicle is neither out of service nor carrying
    passengers. *)
Theorem transition_succeeds_iff v s :
  is_Some (transition v s) <->
  vehicle_state v = s \/
  (vehicle_state v <> OUT_OF_SERVICE /\ has_passengers v = false).
Proof. exact (transition_some_iff v s). Qed.

Lemma transition_keeps v s v' :
  transition v s = Some v' ->
  vehicle_state v' = s /\
  id v' = id v /\
  powertrain_id v' = powertrain_id v /\
  powercurve_id v' = powercurve_id v /\
  energy_source v' = energy_source v /\
  link v' = link v /\
  operating_cost_km v' = operating_cost_km v /\
  passengers v' = passengers v /\
  balance v' = balance v /\
  distance_traveled_km v' = distance_traveled_km v.
Proof.
  intros Ht. destruct (decide (vehicle_state v = s)) as [Heq | Hne].
  - unfold transition in Ht. cbn zeta in Ht.
    destruct (decide (vehicle_state v = s)); [| contradiction].
    inversion Ht; subst v'. repeat split; assumption.
  - destruct (can_transition v s) eqn:Hcan.
    + rewrite (transition_other v s Hne Hcan) in Ht.
      inversion Ht; subst v'. repeat case_match; repeat split; reflexivity.
    + unfold transition in Ht. cbn zeta in Ht.
      destruct (decide (vehicle_state v = s)); [contradiction |].
      rewrite Hcan in Ht. discriminate.
Qed.

(** X2. A successful transition puts the vehicle in the requested state
    and never touches its id, powertrain, powercurve, energy source, link,
    operating cost, passengers, balance or distance travelled. *)
Theorem transition_frame v s v' :
  transition v s = Some v' ->
  vehicle_state v' = s /\
  id v' = id v /\
  powertrain_id v' = powertrain_id v /\
  powercurve_id v' = powercurve_id v /\
  energy_source v' = energy_source v /\
  link v' = link v /\
  operating_cost_km v' = operating_cost_km v /\
  passengers v' = passengers v /\
  balance v' = balance v /\
  distance_traveled_km v' = distance_traveled_km v.
Proof. exact (transition_keeps v s v'). Qed.

Lemma leave_idle v s :
  vehicle_state v = IDLE ->
  has_passengers v = false ->
  s <> IDLE ->
  s <> OUT_OF_SERVICE ->
  transition v s =
    Some (mkVehicle (id v) (powertrain_id v) (powercurve_id v)
            (energy_source v) (link v) (operating_cost_km v) (route v) s
            (passengers v) (charger_intent v) (balance v) 0
            (distance_traveled_km v)).
Proof.
  intros Hidle Hp Hs Hoos.
  assert (Hne : vehicle_state v <> s) by congruence.
  assert (Hcan : can_transition v s = true).
  { apply can_transition_true. repeat split; congruence. }
  rewrite (transition_other v s Hne Hcan).
  destruct (decide (s = OUT_OF_SERVICE)); [contradiction |].
  destruct (decide (vehicle_state v = IDLE)); [| contradiction].
  reflexivity.
Qed.

(** X3. An idle vehicle without passengers that is sent to any state
    other than Idle and OutOfService starts there with an idle time of 0;
    route and charger intent stay as they were. *)
Theorem leaving_idle_resets_idle_time v s :
  vehicle_state v = IDLE ->
  has_passengers v = false ->
  s <> IDLE ->
  s <> OUT_OF_SERVICE ->
  transition v s =
    Some (mkVehicle (id v) (powertrain_id v) (powercurve_id v)
            (energy_source v) (link v) (operating_cost_km v) (route v) s
            (passengers v) (charger_intent v) (balance v) 0
            (distance_traveled_km v)).
Proof. exact (leave_idle v s). Qed.

End Transitions.

Section Operations.

Context {EnergySource Link Passenger Charger : Type}.
Context {Powercurve Powertrain RoadNetwork : Type}.

Variable passenger_id : Passenger -> string.
Variable add_vehicle_id : Passenger -> string -> Passenger.
Variable is_at_ideal_energy_limit : EnergySource -> bool.
Variable is_empty : EnergySource -> bool.
Variable use_energy : EnergySource -> Q -> EnergySource.
Variable refuel : Powercurve -> EnergySource -> Charger -> Z -> EnergySource.
Variable energy_cost : Powertrain -> list Link -> Q.
Variable traverse : list Link -> Z -> option (RouteTraversal Link).
Variable link_end : Link -> string.
Variable link_from_geoid : RoadNetwork -> string -> Link.
Variable SECONDS_TO_HOURS : Q.

Implicit Types v : Vehicle EnergySource Link Passenger Charger.
Implicit Types s : VehicleState.

Lemma replace_passengers_same v : replace_passengers v (passengers v) = v.
Proof. destruct v; reflexivity. Qed.

Lemma has_passengers_true v : has_passengers v = true <-> passengers v <> ∅.
Proof.
  unfold has_passengers. rewrite bool_decide_eq_true.
  rewrite <- map_size_non_empty_iff. lia.
Qed.

Lemma boarding_fills (vid : string) (new_passengers : list Passenger) :
  forall p : gmap string Passenger,
  new_passengers <> [] \/ p <> ∅ ->
  fold_left
    (fun p new =>
       <[passenger_id (add_vehicle_id new vid) := add_vehicle_id new vid]> p)
    new_passengers p <> ∅.
Proof.
  induction new_passengers as [| new rest IH]; intros p Hp.
  - destruct Hp as [Hp | Hp]; [contradiction | exact Hp].
  - cbn [fold_left]. apply IH. right. apply insert_non_empty.
Qed.

(** X4. Once passengers have boarded, the vehicle refuses every
    transition to another state. *)
Theorem boarding_blocks_transition v new_passengers s :
  new_passengers <> [] ->
  s <> vehicle_state v ->
  transition (add_passengers passenger_id add_vehicle_id v new_passengers) s
  = None.
Proof.
  intros Hnew Hs.
  set (w := add_passengers passenger_id add_vehicle_id v new_passengers).
  assert (Hp : has_passengers w = true).
  { apply has_passengers_true. unfold w, add_passengers. cbn.
    apply boarding_fills. left. exact Hnew. }
  assert (Hstate : vehicle_state w = vehicle_state v) by reflexivity.
  destruct (transition w s) as [w' |] eqn:Ht; [| reflexivity].
  assert (His : is_Some (transition w s)) by (eexists; exact Ht).
  apply transition_some_iff in His.
  destruct His as [Heq | [_ Hnone]]; congruence.
Qed.

(** X5. After [drop_off_passenger] the passenger is no longer aboard and
    every other passenger still is; dropping the same passenger again
    changes nothing, and the vehicle's state is never touched. *)
Theorem drop_off_passenger_spec v pid :
  (forall k,
      passengers (drop_off_passenger v pid) !! k =
        if decide (k = pid) then None else passengers v !! k) /\
  drop_off_passenger (drop_off_passenger v pid) pid = drop_off_passenger v pid /\
  vehicle_state (drop_off_passenger v pid) = vehicle_state v.
Proof.
  unfold drop_off_passenger at 1 3 4 5.
  destruct (passengers v !! pid) as [p |] eqn:Hp.
  - split; [| split; [| reflexivity]].
    + intros k. cbn. destruct (decide (k = pid)) as [-> | Hk].
      * apply lookup_delete_eq.
      * apply lookup_delete_ne. congruence.
    + unfold drop_off_passenger. cbn. rewrite lookup_delete_eq. reflexivity.
  - split; [| split; [| reflexivity]].
    + intros k. destruct (decide (k = pid)) as [-> | Hk]; [exact Hp | reflexivity].
    + unfold drop_off_passenger. rewrite Hp. reflexivity.
Qed.

(** X6. Boarding one passenger whose id is not aboard and dropping that
    passenger off again gives back the vehicle as it was. *)
Theorem board_then_drop_off v new :
  passengers v !! passenger_id (add_vehicle_id new (id v)) = None ->
  drop_off_passenger
    (add_passengers passenger_id add_vehicle_id v [new])
    (passenger_id (add_vehicle_id new (id v)))
  = v.
Proof.
  intros Hfresh. unfold drop_off_passenger, add_passengers. cbn.
  rewrite lookup_insert_eq. unfold replace_passengers. cbn.
  rewrite (delete_insert_id _ _ _ Hfresh). destruct v; reflexivity.
Qed.

(** X7. A charge session that was interrupted cannot be resumed: after a
    successful transition from ChargingStation or ChargingBase to a state
    that is neither a charging state nor OutOfService, [charge] raises
    EntityError. *)
Theorem charge_after_interrupted_charge v s v' powercurve duration_seconds :
  vehicle_state v = CHARGING_STATION \/ vehicle_state v = CHARGING_BASE ->
  from_vehicle_state s <> CHARGE ->
  s <> OUT_OF_SERVICE ->
  transition v s = Some v' ->
  charge is_at_ideal_energy_limit refuel v' powercurve duration_seconds
  = Raise EntityError.
Proof.
  intros Hprev Hcat Hoos Ht.
  assert (Hne : vehicle_state v <> s).
  { intros <-. destruct Hprev as [H | H]; rewrite H in Hcat; apply Hcat;
      reflexivity. }
  assert (Hcan : can_transition v s = true).
  { destruct (can_transition v s) eqn:Hc; [reflexivity |].
    unfold transition in Ht. cbn zeta in Ht.
    destruct (decide (vehicle_state v = s)); [contradiction |].
    rewrite Hc in Ht. discriminate. }
  rewrite (transition_other v s Hne Hcan) in Ht.
  destruct (decide (s = OUT_OF_SERVICE)); [contradiction |].
  destruct (decide (vehicle_state v = IDLE)) as [Hidle | _].
  { destruct Hprev; congruence. }
  rewrite (bool_decide_eq_true_2 _ Hcat), andb_true_r in Ht.
  assert (Hcharge : bool_decide (from_vehicle_state (vehicle_state v) = CHARGE)
                    = true).
  { apply bool_decide_eq_true. destruct Hprev as [H | H]; rewrite H;
      reflexivity. }
  rewrite Hcharge in Ht. inversion Ht; subst v'. reflexivity.
Qed.


(** X9. A vehicle with passengers aboard comes out of [move], when it
    comes out at all, in the state it was in and with the same
    passengers: moving never changes the state of an occupied vehicle. *)
Theorem move_keeps_occupied_vehicle_state v road_network power_train
    duration_seconds v' :
  has_passengers v = true ->
  move is_empty use_energy energy_cost traverse link_end link_from_geoid
    v road_network power_train duration_seconds = Ok (Some v') ->
  vehicle_state v' = vehicle_state v /\
  passengers v' = passengers v /\
  id v' = id v.
Proof.
  intros Hp Hmove. unfold move in Hmove.
  destruct (has_route v); cbn [negb] in Hmove.
  - destruct (traverse (route v) duration_seconds) as [tr |].
    + cbn zeta in Hmove.
      set (lev := assign_route (modify_energy_source v _) _) in Hmove.
      assert (Hu : forall u,
                 (if is_empty
                       (use_energy (energy_source v)
                          (energy_cost power_train (experienced_route tr)))
                  then transition lev OUT_OF_SERVICE else Some lev) = Some u ->
                 vehicle_state u = vehicle_state v /\
                 passengers u = passengers v /\ id u = id v).
      { intros u Hu. destruct (is_empty _).
        - pose proof (transition_keeps lev OUT_OF_SERVICE u Hu)
            as [Hs [Hid [_ [_ [_ [_ [_ [Hpass _]]]]]]]].
          assert (His : is_Some (transition lev OUT_OF_SERVICE))
            by (eexists; exact Hu).
          apply transition_some_iff in His.
          destruct His as [Heq | [_ Hnone]].
          + repeat split; [rewrite Hs; symmetry; exact Heq | exact Hpass
                          | exact Hid].
          + unfold has_passengers in Hnone, Hp. cbn in Hnone. congruence.
        - inversion Hu. repeat split; reflexivity. }
      destruct (if is_empty _ then _ else _) as [u |]; [| discriminate].
      destruct (Hu u eq_refl) as [H1 [H2 H3]].
      destruct (remaining_route tr) as [| first rest].
      * destruct (last (experienced_route tr)); [| discriminate].
        inversion Hmove. cbn. repeat split; assumption.
      * inversion Hmove. cbn. repeat split; assumption.
    + inversion Hmove. repeat split; reflexivity.
  - injection Hmove as Ht.
    pose proof (transition_keeps v IDLE v' Ht)
      as [Hs [Hid [_ [_ [_ [_ [_ [Hpass _]]]]]]]].
    assert (His : is_Some (transition v IDLE)) by (eexists; exact Ht).
    apply transition_some_iff in His.
    destruct His as [Heq | [_ Hnone]]; [| congruence].
    repeat split; [congruence | exact Hpass | exact Hid].
Qed.

(** X10. A vehicle that carries passengers and uses up its energy on the
    way is not put out of service: [move] returns None for it. *)
Theorem move_out_of_energy_with_passengers v road_network power_train
    duration_seconds tr :
  has_route v = true ->
  traverse (route v) duration_seconds = Some tr ->
  is_empty (use_energy (energy_source v)
              (energy_cost power_train (experienced_route tr))) = true ->
  has_passengers v = true ->
  vehicle_state v <> OUT_OF_SERVICE ->
  move is_empty use_energy energy_cost traverse link_end link_from_geoid
    v road_network power_train duration_seconds = Ok None.
Proof.
  intros Hroute Htr Hempty Hp Hoos. unfold move.
  rewrite Hroute, Htr. cbn [negb]. cbn zeta. rewrite Hempty.
  set (lev := assign_route (modify_energy_source v _) _).
  destruct (transition lev OUT_OF_SERVICE) as [u |] eqn:Hu; [| reflexivity].
  assert (His : is_Some (transition lev OUT_OF_SERVICE))
    by (eexists; exact Hu).
  apply transition_some_iff in His.
  destruct His as [Heq | [_ Hnone]].
  - contradiction.
  - unfold has_passengers in Hnone, Hp. cbn in Hnone. congruence.
Qed.

(** X11. The only exception [move] raises is IndexError, and only when
    the traversal reports that nothing was experienced and nothing
    remains. *)
Theorem move_raises_only_on_empty_traversal v road_network power_train
    duration_seconds e :
  move is_empty use_energy energy_cost traverse link_end link_from_geoid
    v road_network power_train duration_seconds = Raise e ->
  e = IndexError /\
  exists tr,
    traverse (route v) duration_seconds = Some tr /\
    experienced_route tr = [] /\ remaining_route tr = [].
Proof.
  unfold move. destruct (negb (has_route v)); [discriminate |].
  destruct (traverse (route v) duration_seconds) as [tr |]; [| discriminate].
  cbn zeta. destruct (if is_empty _ then _ else _); [| discriminate].
  destruct (remaining_route tr) as [| first rest] eqn:Hrem; [| discriminate].
  destruct (last (experienced_route tr)) eqn:Hlast; [discriminate |].
  intros H. inversion H. split; [reflexivity |].
  exists tr. split; [reflexivity |]. split; [| exact Hrem].
  apply last_None in Hlast. exact Hlast.
Qed.


End Operations.

(** Witness for X2: a vehicle on its way to a station is sent to
    reposition. *)
Lemma transition_frame_witness :
  transition (sample DISPATCH_STATION ["a"] ∅ (Some "DCFC") 0) REPOSITIONING
    = Some (sample REPOSITIONING ["a"] ∅ None 0) /\
  vehicle_state (sample REPOSITIONING ["a"] ∅ None 0) = REPOSITIONING /\
  id (sample REPOSITIONING ["a"] ∅ None 0) = "v001".
Proof.
  assert (H : transition (sample DISPATCH_STATION ["a"] ∅ (Some "DCFC") 0)
                REPOSITIONING
              = Some (sample REPOSITIONING ["a"] ∅ None 0))
    by (vm_compute; reflexivity).
  split; [exact H |].
  destruct (transition_frame _ _ _ H) as [Hs [Hid _]].
  split; [exact Hs | exact Hid].
Defined.

(** Witness for X3: after 300 seconds of idling a vehicle is sent to a
    request. *)
Lemma leaving_idle_resets_idle_time_witness :
  transition (sample IDLE [] ∅ None 300) DISPATCH_TRIP
    = Some (sample DISPATCH_TRIP [] ∅ None 0).
Proof.
  apply (leaving_idle_resets_idle_time (sample IDLE [] ∅ None 300)
           DISPATCH_TRIP).
  - reflexivity.
  - vm_compute; reflexivity.
  - discriminate.
  - discriminate.
Defined.

(** Witness for X1: an idle vehicle may go to a request; a vehicle with a
    passenger aboard may not. *)
Lemma transition_succeeds_iff_witness :
  is_Some (transition (sample IDLE [] ∅ None 0) DISPATCH_TRIP) /\
  ~ is_Some (transition (sample SERVICING_TRIP [] {[ "p1" := 1%nat ]} None 0)
               IDLE).
Proof.
  split.
  - apply (transition_succeeds_iff (sample IDLE [] ∅ None 0) DISPATCH_TRIP).
    right. split; [discriminate | vm_compute; reflexivity].
  - intros H.
    apply (transition_succeeds_iff
             (sample SERVICING_TRIP [] {[ "p1" := 1%nat ]} None 0) IDLE) in H.
    destruct H as [H | [_ H]]; [discriminate H |].
    vm_compute in H. discriminate H.
Defined.

(** Witness for X4: a passenger boards a vehicle that arrived at the
    request; the vehicle cannot be sent to idle. *)
Lemma boarding_blocks_transition_witness :
  transition
    (add_passengers rider_id board (rider_vehicle DISPATCH_TRIP [] ∅ 10)
       [("p1", None)]) IDLE
  = None.
Proof.
  apply (boarding_blocks_transition rider_id board
           (rider_vehicle DISPATCH_TRIP [] ∅ 10) [("p1", None)] IDLE);
    discriminate.
Defined.

(** Witness for X6: passenger p1 boards an empty vehicle and leaves it. *)
Lemma board_then_drop_off_witness :
  drop_off_passenger
    (add_passengers rider_id board (rider_vehicle SERVICING_TRIP [] ∅ 10)
       [("p1", None)]) "p1"
  = rider_vehicle SERVICING_TRIP [] ∅ 10.
Proof.
  apply (board_then_drop_off rider_id board
           (rider_vehicle SERVICING_TRIP [] ∅ 10) ("p1", None)).
  reflexivity.
Defined.

(** Witness for X7: a vehicle charging at a station is told to idle and
    then asked to charge. *)
Lemma charge_after_interrupted_charge_witness :
  transition (rider_vehicle CHARGING_STATION [] ∅ 10) IDLE
    = Some (mkVehicle "v001" "leaf" "leaf" 10%Q "8f268cdac30e2d3" (1 # 2)
              [] IDLE (∅ : gmap string (string * option string)) (None : option string)
              0 0 0) /\
  charge (fun e : Q => Qle_bool 50 e)
    (fun (_ : unit) (e : Q) (_ : string) (d : Z) => (e + 1)%Q)
    (mkVehicle "v001" "leaf" "leaf" 10%Q "8f268cdac30e2d3" (1 # 2)
       [] IDLE (∅ : gmap string (string * option string)) (None : option string)
              0 0 0) tt 60
  = Raise EntityError.
Proof.
  assert (H : transition (rider_vehicle CHARGING_STATION [] ∅ 10) IDLE
              = Some (mkVehicle "v001" "leaf" "leaf" 10%Q "8f268cdac30e2d3"
                        (1 # 2) [] IDLE (∅ : gmap string (string * option string)) (None : option string)
              0 0 0))
    by (vm_compute; reflexivity).
  split; [exact H |].
  apply (charge_after_interrupted_charge (fun e : Q => Qle_bool 50 e)
           (fun (_ : unit) (e : Q) (_ : string) (d : Z) => (e + 1)%Q)
           (rider_vehicle CHARGING_STATION [] ∅ 10) IDLE).
  - left; reflexivity.
  - discriminate.
  - discriminate.
  - exact H.
Defined.


(** Witness for X9: an occupied vehicle with energy to spare covers one
    link of its trip. *)
Lemma move_keeps_occupied_vehicle_state_witness :
  vehicle_state
    (mkVehicle "v001" "leaf" "leaf" (50 - 10)%Q "b" (1 # 2) ["b"]
       SERVICING_TRIP ({[ "p1" := ("p1", Some "v001") ]}
                         : gmap string (string * option string))
       (Some "DCFC") 0 0 (0 + 1)%Q)
  = SERVICING_TRIP.
Proof.
  apply (move_keeps_occupied_vehicle_state Q_is_empty Qminus
           (fun (_ : unit) (r : list string) => 10%Q) one_link_per_step
           (fun l : string => l) (fun (_ : unit) (g : string) => g)
           (rider_vehicle SERVICING_TRIP ["a"; "b"]
              {[ "p1" := ("p1", Some "v001") ]} 50) tt tt 60).
  - vm_compute; reflexivity.
  - reflexivity.
Defined.

(** Witness for X10: the same trip with 10 kWh left, all of which the
    step uses. *)
Lemma move_out_of_energy_with_passengers_witness :
  sample_move one_link_per_step
    (rider_vehicle SERVICING_TRIP ["a"; "b"]
       {[ "p1" := ("p1", Some "v001") ]} 10)
  = Ok None.
Proof.
  apply (move_out_of_energy_with_passengers Q_is_empty Qminus
           (fun (_ : unit) (r : list string) => 10%Q) one_link_per_step
           (fun l : string => l) (fun (_ : unit) (g : string) => g)
           (rider_vehicle SERVICING_TRIP ["a"; "b"]
              {[ "p1" := ("p1", Some "v001") ]} 10) tt tt 60
           (mkRouteTraversal ["a"] 1%Q ["b"])).
  - reflexivity.
  - reflexivity.
  - reflexivity.
  - vm_compute; reflexivity.
  - discriminate.
Defined.

(** Witness for X11: a traversal that reports no link at all. *)
Lemma move_raises_only_on_empty_traversal_witness :
  sample_move stalled (rider_vehicle REPOSITIONING ["a"] ∅ 50)
    = Raise IndexError /\
  exists tr,
    stalled ["a"] 60 = Some tr /\
    experienced_route tr = [] /\ remaining_route tr = [].
Proof.
  assert (H : sample_move stalled (rider_vehicle REPOSITIONING ["a"] ∅ 50)
              = Raise IndexError) by reflexivity.
  split; [exact H |].
  exact (proj2 (move_raises_only_on_empty_traversal Q_is_empty Qminus
                  (fun (_ : unit) (r : list string) => 10%Q) stalled
                  (fun l : string => l) (fun (_ : unit) (g : string) => g)
                  (rider_vehicle REPOSITIONING ["a"] ∅ 50) tt tt 60
                  IndexError H)).
Defined.


End vehicle_operations_facts.

(** ** The reporter between two flushes *)

Module reporter_buffer_facts.

Import reporter reporter_summary.

Section Buffer.

Context {Report Handler RunnerPayload Stats : Type}.
Variable sim_time : RunnerPayload -> Z.
Variable get_stats : Handler -> option Stats.

Implicit Types self : Reporter Report Handler.
Implicit Types p : RunnerPayload.

(** Filing a batch of reports, one call of [file_report] each. *)
Lemma file_reports_fold self (batch : list Report) :
  fold_left file_report batch self =
  mkReporter (config self) (reports self ++ batch) (handlers self).
Proof.
  revert self. induction batch as [| r batch IH]; intros self.
  - cbn. rewrite app_nil_r. destruct self; reflexivity.
  - cbn [fold_left]. rewrite IH. cbn. rewrite <- app_assoc. reflexivity.
Qed.

Lemma flush_when_due self p :
  log_period_seconds (config self) <> 0 ->
  sim_time p mod log_period_seconds (config self) = 0 ->
  flush sim_time self p =
    Returned
      (mkReporter (config self) [] (handlers self),
       map (fun h => handle h (reports self) p) (handlers self)).
Proof.
  intros Hperiod Hmod. unfold flush.
  destruct (Z.eqb_spec (log_period_seconds (config self)) 0);
    [contradiction |].
  rewrite Hmod. reflexivity.
Qed.

(** X13. Reports are delivered once: at a flush that is due every handler
    receives what was buffered followed by the reports filed since, in the
    order of filing; a second due flush with nothing filed in between
    still calls every handler, with an empty list. *)
Theorem filed_reports_are_delivered_once self (batch : list Report) p p' :
  log_period_seconds (config self) <> 0 ->
  sim_time p mod log_period_seconds (config self) = 0 ->
  sim_time p' mod log_period_seconds (config self) = 0 ->
  exists flushed,
    flush sim_time (fold_left file_report batch self) p =
      Returned
        (flushed,
         map (fun h => handle h (reports self ++ batch) p) (handlers self)) /\
    reports flushed = [] /\
    flush sim_time flushed p' =
      Returned (flushed, map (fun h => handle h [] p') (handlers self)).
Proof.
  intros Hperiod Hp Hp'. rewrite file_reports_fold.
  eexists. split; [| split].
  - rewrite flush_when_due; [reflexivity | exact Hperiod | exact Hp].
  - reflexivity.
  - rewrite flush_when_due; [reflexivity | exact Hperiod | exact Hp'].
Qed.

(** X14. A handler added to the reporter is called last, and it receives
    the reports that were filed before it was added. *)
Theorem added_handler_is_called_last self (h : Handler) p :
  log_period_seconds (config self) <> 0 ->
  sim_time p mod log_period_seconds (config self) = 0 ->
  flush sim_time (add_handler self h) p =
    Returned
      (mkReporter (config self) [] (handlers self ++ [h]),
       map (fun h' => handle h' (reports self) p) (handlers self)
         ++ [handle h (reports self) p]).
Proof.
  intros Hperiod Hp. rewrite flush_when_due; [| exact Hperiod | exact Hp].
  cbn. rewrite map_app. reflexivity.
Qed.

Lemma summary_fold (hs : list Handler) (acc : option Stats) :
  fold_left
    (fun final_report handler =>
       match get_stats handler with
       | Some stats => Some stats
       | None => final_report
       end) hs acc =
  match
    fold_left
      (fun final_report handler =>
         match get_stats handler with
         | Some stats => Some stats
         | None => final_report
         end) hs None
  with
  | Some stats => Some stats
  | None => acc
  end.
Proof.
  revert acc. induction hs as [| h hs IH]; intros acc; [reflexivity |].
  cbn [fold_left]. rewrite IH. rewrite (IH (match get_stats h with
                                             | Some stats => Some stats
                                             | None => None
                                             end)).
  destruct (fold_left _ hs None); [reflexivity |].
  destruct (get_stats h); reflexivity.
Qed.

(** X15. [get_summary_stats] answers with the statistics of the last
    StatsHandler among the handlers, and with None exactly when no handler
    is a StatsHandler. *)
Theorem summary_is_last_stats_handler self :
  (forall pre h post stats,
      handlers self = pre ++ h :: post ->
      get_stats h = Some stats ->
      Forall (fun h' => get_stats h' = None) post ->
      get_summary_stats get_stats self = Some stats) /\
  (get_summary_stats get_stats self = None <->
   Forall (fun h => get_stats h = None) (handlers self)).
Proof.
  unfold get_summary_stats. split.
  - intros pre h post stats Hh Hstats Hpost. rewrite Hh, fold_left_app.
    cbn [fold_left]. rewrite Hstats. clear Hh.
    induction Hpost as [| h' post Hh' _ IH]; [reflexivity |].
    cbn [fold_left]. rewrite Hh'. exact IH.
  - induction (handlers self) as [| h hs IH]; cbn [fold_left].
    + split; [intros _; constructor | reflexivity].
    + rewrite summary_fold. destruct (get_stats h) as [stats |] eqn:Hh.
      * split.
        -- destruct (fold_left _ hs None); discriminate.
        -- intros Hall. inversion Hall; congruence.
      * split.
        -- intros Hnone. constructor; [exact Hh |]. apply IH.
           destruct (fold_left _ hs None); [discriminate | reflexivity].
        -- intros Hall. inversion Hall as [| ? ? _ Hhs]; subst.
           apply IH in Hhs. rewrite Hhs. reflexivity.
Qed.

End Buffer.

(** Witness for X13: a third report is filed with the minute reporter,
    which is flushed at 120 and at 180 seconds. *)
Lemma filed_reports_are_delivered_once_witness :
  exists flushed,
    flush (fun t : Z => t)
      (fold_left file_report ["idle"] minute_reporter) 120 =
      Returned
        (flushed,
         [handle "csv" ["dispatch"; "charge"; "idle"] 120;
          handle "stats" ["dispatch"; "charge"; "idle"] 120]) /\
    reports flushed = [] /\
    flush (fun t : Z => t) flushed 180 =
      Returned (flushed, [handle "csv" [] 180; handle "stats" [] 180]).
Proof.
  apply (filed_reports_are_delivered_once (fun t : Z => t) minute_reporter
           ["idle"] 120 180).
  - discriminate.
  - reflexivity.
  - reflexivity.
Defined.

(** Witness for X14: a json handler joins the minute reporter. *)
Lemma added_handler_is_called_last_witness :
  flush (fun t : Z => t) (add_handler minute_reporter "json") 60 =
    Returned
      (mkReporter (mkGlobalConfig 60) [] ["csv"; "stats"; "json"],
       [handle "csv" ["dispatch"; "charge"] 60;
        handle "stats" ["dispatch"; "charge"] 60;
        handle "json" ["dispatch"; "charge"] 60]).
Proof.
  apply (added_handler_is_called_last (fun t : Z => t) minute_reporter
           "json" 60).
  - discriminate.
  - reflexivity.
Defined.

(** Witness for X15: of the handlers csv and stats only stats keeps
    statistics. *)
Lemma summary_is_last_stats_handler_witness :
  get_summary_stats
    (fun h : string => if String.eqb h "stats" then Some 7%nat else None)
    minute_reporter
  = Some 7%nat.
Proof.
  apply (proj1 (summary_is_last_stats_handler
                  (fun h : string =>
                     if String.eqb h "stats" then Some 7%nat else None)
                  minute_reporter) ["csv"] "stats" [] 7%nat).
  - reflexivity.
  - reflexivity.
  - constructor.
Defined.

End reporter_buffer_facts.

(** ** Failures inside the two folds of the pipeline *)

Module step_simulation_restart_facts.

Import step_simulation.

Section Restart.

Context {Vehicle Station Base Request RoadNetwork : Type}.
Context {Environment Instruction : Type}.

Abbreviation State' :=
  (SimulationState Vehicle Station Base Request RoadNetwork).

Variable step_vehicle : State' -> string -> Environment -> option State'.
Variable apply_instruction : Instruction -> State' -> option State'.

(** X16. When an instruction fails, [apply_instructions] goes on from the
    state it was called with: the result is that of applying only the
    instructions after the failing one. *)
Theorem failed_instruction_restarts (s : State') pre i post :
  apply_instruction i (apply_instructions apply_instruction s pre) = None ->
  apply_instructions apply_instruction s (pre ++ i :: post) =
  apply_instructions apply_instruction s post.
Proof.
  intros Hfail. unfold apply_instructions. rewrite fold_left_app.
  cbn [fold_left]. unfold _add_instruction at 2.
  fold (apply_instructions apply_instruction s pre). rewrite Hfail.
  reflexivity.
Qed.

(** X17. When the step of a vehicle fails, [step_simulation] goes on from
    the state it was called with: the state returned is the tick of
    stepping only the vehicles after the failing one. *)
Theorem failed_step_restarts (s : State') env pre vid post :
  vehicles_keys s = pre ++ vid :: post ->
  step_vehicle (fold_left (_step_vehicle step_vehicle s env) pre s) vid env
  = None ->
  step_simulation step_vehicle s env =
  tick (fold_left (_step_vehicle step_vehicle s env) post s).
Proof.
  intros Hkeys Hfail. unfold step_simulation. cbn zeta.
  rewrite Hkeys, fold_left_app. cbn [fold_left].
  unfold _step_vehicle at 2. rewrite Hfail. reflexivity.
Qed.

End Restart.

(** Witness for X16: two recharges around a refused instruction; only the
    second recharge shows. *)
Lemma failed_instruction_restarts_witness :
  apply_instructions apply_fleet_instruction
    (fleet 0 [("v001", 40); ("v002", 30)])
    ([Recharge "v001"] ++ Inadmissible :: [Recharge "v002"])
  = fleet 0 [("v001", 40); ("v002", 100)].
Proof.
  rewrite (failed_instruction_restarts apply_fleet_instruction
             (fleet 0 [("v001", 40); ("v002", 30)])
             [Recharge "v001"] Inadmissible [Recharge "v002"]).
  - reflexivity.
  - reflexivity.
Defined.

(** Witness for X17: v001 is stepped, v002 has no charge and fails, v003
    is stepped; the step of v001 is undone. *)
Lemma failed_step_restarts_witness :
  step_simulation drain_vehicle
    (fleet 0 [("v001", 50); ("v002", 0); ("v003", 50)]) 10
  = fleet 60 [("v001", 50); ("v002", 0); ("v003", 40)].
Proof.
  rewrite (failed_step_restarts drain_vehicle
             (fleet 0 [("v001", 50); ("v002", 0); ("v003", 50)]) 10
             ["v001"] "v002" ["v003"]).
  - reflexivity.
  - reflexivity.
  - reflexivity.
Defined.

End step_simulation_restart_facts.

(** ** Building the initial state, and the terminal cases *)

Module simulationstateops_facts.

Import vehicle_operations simulationstateops.

Section InitialState.

Context {Vehicle Station Base Other RoadNetwork : Type}.
Context {SimulationState SimulationStateError : Type}.

Variable new_state : RoadNetwork -> Z -> Z -> Z -> SimulationState.
Variable add_vehicle :
  SimulationState -> Vehicle -> SimulationStateError + SimulationState.
Variable add_station :
  SimulationState -> Station -> SimulationStateError + SimulationState.
Variable add_base :
  SimulationState -> Base -> SimulationStateError + SimulationState.
Variable not_an_entity : Other -> SimulationStateError.

Abbreviation add_all :=
  (fold_left
     (_add_to_accumulator add_vehicle add_station add_base not_an_entity)).

(** The number of entities a state holds. *)
Variable entities : SimulationState -> nat.

Lemma add_all_accounts xs :
  (forall s v s', add_vehicle s v = inr s' -> entities s' = S (entities s)) ->
  (forall s x s', add_station s x = inr s' -> entities s' = S (entities s)) ->
  (forall s b s', add_base s b = inr s' -> entities s' = S (entities s)) ->
  forall acc,
  (entities (fst (add_all xs acc)) + length (snd (add_all xs acc)) =
   entities (fst acc) + length (snd acc) + length xs)%nat.
Proof.
  intros Hv Hs Hb. induction xs as [| x xs IH]; intros acc.
  - cbn. lia.
  - cbn [fold_left]. rewrite IH. cbn [length].
    destruct x as [v | st | b | o]; cbn.
    + destruct (add_vehicle (fst acc) v) as [e | s'] eqn:Ha; cbn;
        [lia | rewrite (Hv _ _ _ Ha); lia].
    + destruct (add_station (fst acc) st) as [e | s'] eqn:Ha; cbn;
        [lia | rewrite (Hs _ _ _ Ha); lia].
    + destruct (add_base (fst acc) b) as [e | s'] eqn:Ha; cbn;
        [lia | rewrite (Hb _ _ _ Ha); lia].
    + lia.
Qed.

(** X18. Nothing handed to [initial_simulation_state] is lost: when every
    successful add puts one more entity into the state, the entities of
    the state built and the failures reported add up to the entities of
    the empty state plus all vehicles, stations and bases given. *)
Theorem initial_state_accounts_for_every_entity road_network
    vehicles stations bases start_time dt resolution :
  (forall s v s', add_vehicle s v = inr s' -> entities s' = S (entities s)) ->
  (forall s x s', add_station s x = inr s' -> entities s' = S (entities s)) ->
  (forall s b s', add_base s b = inr s' -> entities s' = S (entities s)) ->
  (entities
     (fst (initial_simulation_state new_state add_vehicle add_station
             add_base not_an_entity road_network vehicles stations bases
             start_time dt resolution))
   + length
       (snd (initial_simulation_state new_state add_vehicle add_station
               add_base not_an_entity road_network vehicles stations bases
               start_time dt resolution))
   = entities (new_state road_network start_time dt resolution)
     + length vehicles + length stations + length bases)%nat.
Proof.
  intros Hv Hs Hb. unfold initial_simulation_state. cbn zeta.
  rewrite !(add_all_accounts _ Hv Hs Hb). cbn. lia.
Qed.

(** The failure log only grows at the front: adding a batch to an
    accumulator builds the state it would build from an empty log, and
    returns the failures of the batch, newest first, in front of the
    failures already logged. *)
Theorem failures_are_logged_in_front xs (s : SimulationState)
    (logged : list SimulationStateError) :
  add_all xs (s, logged) =
  (fst (add_all xs (s, [])), snd (add_all xs (s, [])) ++ logged).
Proof.
  revert s logged. induction xs as [| x xs IH]; intros s logged.
  - reflexivity.
  - cbn [fold_left].
    assert (Hstep :
      forall log,
        _add_to_accumulator add_vehicle add_station add_base not_an_entity
          (s, log) x =
        (fst (_add_to_accumulator add_vehicle add_station add_base
                not_an_entity (s, []) x),
         snd (_add_to_accumulator add_vehicle add_station add_base
                not_an_entity (s, []) x) ++ log)).
    { intros log. destruct x as [v | st | b | o]; cbn.
      - destruct (add_vehicle s v); reflexivity.
      - destruct (add_station s st); reflexivity.
      - destruct (add_base s b); reflexivity.
      - reflexivity. }
    rewrite (Hstep logged), (Hstep []), app_nil_r.
    rewrite IH.
    rewrite (IH _ (snd (_add_to_accumulator add_vehicle add_station add_base
                          not_an_entity (s, []) x))).
    cbn [fst snd]. rewrite app_assoc. reflexivity.
Qed.

End InitialState.

Section TerminalCases.

Context {EnergySource Link Passenger Charger Station Base : Type}.

Variable passenger_id : Passenger -> string.
Variable destination : Passenger -> string.
Variable add_vehicle_id : Passenger -> string -> Passenger.
Variable link_start : Link -> string.

Implicit Types v : vehicle.Vehicle EnergySource Link Passenger Charger.
Implicit Types at_location : AtLocation Passenger Station Base.

(** The body of the loop of [_case_dispatch_trip]. *)
Abbreviation pick_up :=
  (fun (acc : result (vehicle.Vehicle EnergySource Link Passenger Charger))
       (request : Request Passenger) =>
     match acc with
     | Raise e => Raise e
     | Ok vehicle =>
         if bool_decide (dispatched_vehicle request = Some (vehicle.id vehicle))
            && vehicle.can_transition vehicle vehicle.SERVICING_TRIP
         then
           match vehicle.transition vehicle vehicle.SERVICING_TRIP with
           | None => Raise AttributeError
           | Some transitioned =>
               Ok (add_passengers passenger_id add_vehicle_id transitioned
                     (passengers request))
           end
         else Ok vehicle
     end).

Lemma pick_up_settled (reqs : list (Request Passenger)) v :
  vehicle.vehicle_state v = vehicle.SERVICING_TRIP ->
  fold_left pick_up reqs (Ok v) = Ok v.
Proof.
  intros Hstate. induction reqs as [| q reqs IH]; [reflexivity |].
  cbn [fold_left].
  assert (Hcan : vehicle.can_transition v vehicle.SERVICING_TRIP = false).
  { destruct (vehicle.can_transition v vehicle.SERVICING_TRIP) eqn:Hc;
      [| reflexivity].
    apply vehicle_operations_facts.can_transition_true in Hc.
    destruct Hc as [Hne _]. contradiction. }
  rewrite Hcan, andb_false_r. exact IH.
Qed.

Lemma pick_up_skips (reqs : list (Request Passenger)) v :
  Forall (fun q => dispatched_vehicle q <> Some (vehicle.id v)) reqs ->
  fold_left pick_up reqs (Ok v) = Ok v.
Proof.
  induction 1 as [| q reqs Hq _ IH]; [reflexivity |].
  cbn [fold_left]. rewrite (bool_decide_eq_false_2 _ Hq). cbn. exact IH.
Qed.

Lemma pick_up_never_raises (reqs : list (Request Passenger)) :
  forall v,
  exists w, fold_left pick_up reqs (Ok v) = Ok w /\
            vehicle.id w = vehicle.id v.
Proof.
  induction reqs as [| q reqs IH]; intros v.
  - exists v. split; reflexivity.
  - cbn [fold_left].
    destruct (bool_decide (dispatched_vehicle q = Some (vehicle.id v))
              && vehicle.can_transition v vehicle.SERVICING_TRIP) eqn:Hcond.
    + apply andb_true_iff in Hcond. destruct Hcond as [_ Hcan].
      pose proof Hcan as Hc.
      apply vehicle_operations_facts.can_transition_true in Hc.
      destruct Hc as [Hne _].
      rewrite (vehicle_operations_facts.transition_other v _ Hne Hcan).
      match goal with
      | |- context [add_passengers _ _ ?t ?ps] =>
          destruct (IH (add_passengers passenger_id add_vehicle_id t ps))
            as [w [Hw Hid]]
      end.
      exists w. split; [exact Hw |]. rewrite Hid. cbn.
      repeat case_match; reflexivity.
    + apply IH.
Qed.

(** X19. A vehicle that arrived at a request picks up one request only:
    the first one in the tuple that was dispatched to it.  Requests
    further down are ignored, also those dispatched to the same
    vehicle. *)
Theorem dispatch_trip_picks_up_first_request v at_location pre r post :
  requests at_location = pre ++ r :: post ->
  Forall (fun q => dispatched_vehicle q <> Some (vehicle.id v)) pre ->
  dispatched_vehicle r = Some (vehicle.id v) ->
  vehicle.can_transition v vehicle.SERVICING_TRIP = true ->
  vehicle.has_route v = false ->
  exists transitioned,
    vehicle.transition v vehicle.SERVICING_TRIP = Some transitioned /\
    _case_dispatch_trip passenger_id add_vehicle_id v at_location =
      Ok (add_passengers passenger_id add_vehicle_id transitioned
            (passengers r)).
Proof.
  intros Hreqs Hpre Hr Hcan Hroute. unfold _case_dispatch_trip.
  rewrite Hreqs, Hroute.
  assert (Hne : nonempty (pre ++ r :: post) = true) by (destruct pre; reflexivity).
  rewrite Hne. cbn [negb andb]. rewrite fold_left_app.
  rewrite (pick_up_skips pre v Hpre). cbn [fold_left].
  rewrite (bool_decide_eq_true_2 _ Hr), Hcan. cbn [andb].
  destruct (vehicle.transition v vehicle.SERVICING_TRIP) as [t |] eqn:Ht.
  - exists t. split; [reflexivity |]. apply pick_up_settled. cbn.
    apply (vehicle_operations_facts.transition_keeps v _ t Ht).
  - exfalso.
    assert (His : is_Some (vehicle.transition v vehicle.SERVICING_TRIP)).
    { apply vehicle_operations_facts.transition_some_iff.
      apply vehicle_operations_facts.can_transition_true in Hcan.
      right. tauto. }
    destruct His as [x Hx]. congruence.
Qed.

(** X20. [_case_dispatch_trip] never raises: [add_passengers] is only
    reached after a transition that succeeded; the vehicle it returns has
    the id of the vehicle given. *)
Theorem dispatch_trip_never_raises v at_location :
  exists w,
    _case_dispatch_trip passenger_id add_vehicle_id v at_location = Ok w /\
    vehicle.id w = vehicle.id v.
Proof.
  unfold _case_dispatch_trip.
  destruct (nonempty (requests at_location) && negb (vehicle.has_route v)).
  - apply pick_up_never_raises.
  - exists v. split; reflexivity.
Qed.

(** X21. At the end of its route, [_case_serving_trip] returns no vehicle
    with passengers aboard: it raises SimulationStateError if any
    passenger is left after the drop-off. *)
Theorem serving_trip_leaves_no_passengers v v' :
  vehicle.has_route v = false ->
  _case_serving_trip passenger_id destination link_start v = Ok (Some v') ->
  vehicle.has_passengers v' = false /\
  vehicle.vehicle_state v' = vehicle.IDLE.
Proof.
  intros Hroute Hcase. unfold _case_serving_trip in Hcase.
  rewrite Hroute in Hcase. cbn [negb] in Hcase. cbn zeta in Hcase.
  match type of Hcase with
  | context [vehicle.has_passengers ?d] =>
      destruct (vehicle.has_passengers d) eqn:Hp; [discriminate |];
      set (dropped := d) in *
  end.
  injection Hcase as Ht.
  pose proof (vehicle_operations_facts.transition_keeps dropped _ v' Ht)
    as [Hs [_ [_ [_ [_ [_ [_ [Hpass _]]]]]]]].
  split; [| exact Hs].
  unfold vehicle.has_passengers in *. rewrite Hpass. exact Hp.
Qed.

Lemma drop_off_deletes v pid :
  drop_off_passenger v pid =
  replace_passengers v (delete pid (vehicle.passengers v)).
Proof.
  unfold drop_off_passenger.
  destruct (vehicle.passengers v !! pid) eqn:Hp; [reflexivity |].
  rewrite (delete_id _ _ Hp). destruct v; reflexivity.
Qed.

(** The drop-off loop when every passenger it sees has arrived. *)
Lemma drop_off_all (riders : list Passenger) :
  forall v,
  Forall (fun p => destination p = geoid link_start v) riders ->
  fold_left
    (fun (vehicle : vehicle.Vehicle EnergySource Link Passenger Charger)
         (passenger : Passenger) =>
       if String.eqb (destination passenger) (geoid link_start vehicle)
       then drop_off_passenger vehicle (passenger_id passenger)
       else vehicle)
    riders v =
  replace_passengers v
    (fold_left (fun m p => delete (passenger_id p) m) riders
       (vehicle.passengers v)).
Proof.
  induction riders as [| p riders IH]; intros v Hall.
  - cbn. destruct v; reflexivity.
  - inversion Hall as [| ? ? Hp Hrest]; subst. cbn [fold_left].
    rewrite Hp, String.eqb_refl, drop_off_deletes. rewrite IH.
    + reflexivity.
    + exact Hrest.
Qed.

Lemma delete_all_keeps_none (riders : list Passenger) (k : string) :
  forall m : gmap string Passenger,
  m !! k = None ->
  fold_left (fun m p => delete (passenger_id p) m) riders m !! k = None.
Proof.
  induction riders as [| p riders IH]; intros m Hm; [exact Hm |].
  cbn [fold_left]. apply IH. apply lookup_delete_None. right. exact Hm.
Qed.

Lemma delete_all_removes (riders : list Passenger) (k : string) :
  forall m : gmap string Passenger,
  In k (map passenger_id riders) ->
  fold_left (fun m p => delete (passenger_id p) m) riders m !! k = None.
Proof.
  induction riders as [| p riders IH]; intros m Hin; [contradiction |].
  cbn [fold_left]. destruct Hin as [Hk | Hin].
  - apply delete_all_keeps_none. rewrite Hk. apply lookup_delete_eq.
  - apply IH, Hin.
Qed.

(** X22. When every passenger aboard is filed under its own id and has
    the vehicle's geoid as destination, a vehicle at the end of its route
    that is not out of service drops them all and turns idle. *)
Theorem serving_trip_drops_everyone_off v :
  vehicle.has_route v = false ->
  (forall k p, vehicle.passengers v !! k = Some p ->
               passenger_id p = k /\ destination p = geoid link_start v) ->
  vehicle.vehicle_state v <> vehicle.OUT_OF_SERVICE ->
  exists w,
    _case_serving_trip passenger_id destination link_start v = Ok (Some w) /\
    vehicle.vehicle_state w = vehicle.IDLE /\
    vehicle.passengers w = ∅ /\
    vehicle.id w = vehicle.id v.
Proof.
  intros Hroute Hall Hoos. unfold _case_serving_trip.
  rewrite Hroute. cbn [negb]. cbn zeta.
  rewrite drop_off_all.
  2:{ apply List.Forall_forall. intros p Hp. apply in_map_iff in Hp.
      destruct Hp as [[k p'] [Heq Hin]]. cbn in Heq. subst p'.
      apply list_elem_of_In, elem_of_map_to_list in Hin.
      apply (Hall k p Hin). }
  assert (Hempty :
    fold_left (fun m p => delete (passenger_id p) m)
      (map snd (map_to_list (vehicle.passengers v))) (vehicle.passengers v)
    = ∅).
  { apply map_empty. intros k.
    destruct (vehicle.passengers v !! k) as [p |] eqn:Hk.
    - apply delete_all_removes. apply in_map_iff. exists p.
      split; [apply (Hall k p Hk) |].
      apply in_map_iff. exists (k, p). split; [reflexivity |].
      apply list_elem_of_In, elem_of_map_to_list. exact Hk.
    - apply delete_all_keeps_none. exact Hk. }
  rewrite Hempty.
  set (dropped := replace_passengers v ∅).
  assert (Hp : vehicle.has_passengers dropped = false).
  { unfold vehicle.has_passengers. cbn. rewrite map_size_empty.
    reflexivity. }
  rewrite Hp.
  assert (His : is_Some (vehicle.transition dropped vehicle.IDLE)).
  { apply vehicle_operations_facts.transition_some_iff. right.
    split; [exact Hoos | exact Hp]. }
  destruct His as [w Hw]. exists w. split; [rewrite Hw; reflexivity |].
  pose proof (vehicle_operations_facts.transition_keeps dropped _ w Hw)
    as [Hs [Hid [_ [_ [_ [_ [_ [Hpass _]]]]]]]].
  split; [exact Hs |]. split; [exact Hpass | exact Hid].
Qed.

(** X23. [_case_dispatch_base] always returns a vehicle: the transition to
    ReserveBase is only asked for when [can_transition] allows it. *)
Theorem dispatch_base_always_returns v at_location :
  exists w,
    _case_dispatch_base v at_location = Some w /\
    vehicle.id w = vehicle.id v /\
    (vehicle.vehicle_state w = vehicle.vehicle_state v \/
     vehicle.vehicle_state w = vehicle.RESERVE_BASE).
Proof.
  unfold _case_dispatch_base.
  destruct (nonempty (bases at_location)
            && vehicle.can_transition v vehicle.RESERVE_BASE
            && negb (vehicle.has_route v)) eqn:Hcond.
  - apply andb_true_iff in Hcond. destruct Hcond as [Hcond _].
    apply andb_true_iff in Hcond. destruct Hcond as [_ Hcan].
    pose proof Hcan as Hc.
    apply vehicle_operations_facts.can_transition_true in Hc.
    destruct Hc as [Hne _].
    rewrite (vehicle_operations_facts.transition_other v _ Hne Hcan).
    eexists. split; [reflexivity |].
    split; [repeat case_match; reflexivity |].
    right. repeat case_match; reflexivity.
  - exists v. split; [reflexivity |]. split; [reflexivity | left; reflexivity].
Qed.

End TerminalCases.

Lemma add_id_grows (s : list string) (k : string) (s' : list string) :
  add_id s k = inr s' -> length s' = S (length s).
Proof.
  unfold add_id. destruct (bool_decide (k ∈ s)); [discriminate |].
  intros H. inversion H. rewrite length_app. cbn. lia.
Qed.

(** Witness for X18: two vehicles with one id, a station, a base and a
    stray number: three entities are added and two failures reported. *)
Lemma initial_state_accounts_for_every_entity_witness :
  build_ids [a_vehicle "v1"; a_vehicle "v1"] [a_station "s1"; another 7]
    [a_base "b1"]
  = (["v1"; "s1"; "b1"], ["not an entity"; "v1"]) /\
  (3 + 2 = 0 + 2 + 2 + 1)%nat.
Proof.
  split; [reflexivity |].
  exact (initial_state_accounts_for_every_entity
           (fun (_ : unit) (_ _ _ : Z) => []) add_id add_id add_id
           (fun x : Z => "not an entity"%string) (@length string) tt
           [a_vehicle "v1"; a_vehicle "v1"] [a_station "s1"; another 7]
           [a_base "b1"] 0 1 15 add_id_grows add_id_grows add_id_grows).
Defined.

(** Witness for X19: at the vehicle's location wait a request dispatched
    to v002 and two dispatched to v001; the rider of the first of these
    two boards. *)
Lemma dispatch_trip_picks_up_first_request_witness :
  _case_dispatch_trip traveller_id traveller_board
    (taxi vehicle.DISPATCH_TRIP [] ∅)
    (mkAtLocation
       [mkRequest (Some "v002") [("p0", "there", None)];
        mkRequest (Some "v001") [("p1", "there", None)];
        mkRequest (Some "v001") [("p2", "there", None)]]
       ([] : list unit) ([] : list unit))
  = Ok (taxi vehicle.SERVICING_TRIP []
          {[ "p1" := ("p1", "there", Some "v001") ]}) /\
  exists transitioned,
    vehicle.transition (taxi vehicle.DISPATCH_TRIP [] ∅)
      vehicle.SERVICING_TRIP = Some transitioned /\
    _case_dispatch_trip traveller_id traveller_board
      (taxi vehicle.DISPATCH_TRIP [] ∅)
      (mkAtLocation
         [mkRequest (Some "v002") [("p0", "there", None)];
          mkRequest (Some "v001") [("p1", "there", None)];
          mkRequest (Some "v001") [("p2", "there", None)]]
         ([] : list unit) ([] : list unit))
    = Ok (add_passengers traveller_id traveller_board transitioned
            [("p1", "there", None)]).
Proof.
  split; [vm_compute; reflexivity |].
  apply (dispatch_trip_picks_up_first_request traveller_id traveller_board
           (taxi vehicle.DISPATCH_TRIP [] ∅)
           (mkAtLocation
              [mkRequest (Some "v002") [("p0", "there", None)];
               mkRequest (Some "v001") [("p1", "there", None)];
               mkRequest (Some "v001") [("p2", "there", None)]]
              ([] : list unit) ([] : list unit))
           [mkRequest (Some "v002") [("p0", "there", None)]]
           (mkRequest (Some "v001") [("p1", "there", None)])
           [mkRequest (Some "v001") [("p2", "there", None)]]).
  - reflexivity.
  - constructor; [discriminate | constructor].
  - reflexivity.
  - vm_compute; reflexivity.
  - reflexivity.
Defined.

(** Witness for X21: the rider's destination is where the vehicle
    stands. *)
Lemma serving_trip_leaves_no_passengers_witness :
  _case_serving_trip traveller_id traveller_destination (fun l : string => l)
    (taxi vehicle.SERVICING_TRIP [] {[ "p1" := ("p1", "here", Some "v001") ]})
  = Ok (Some (taxi vehicle.IDLE [] ∅)) /\
  vehicle.has_passengers (taxi vehicle.IDLE [] ∅) = false /\
  vehicle.vehicle_state (taxi vehicle.IDLE [] ∅) = vehicle.IDLE.
Proof.
  assert (H : _case_serving_trip traveller_id traveller_destination
                (fun l : string => l)
                (taxi vehicle.SERVICING_TRIP []
                   {[ "p1" := ("p1", "here", Some "v001") ]})
              = Ok (Some (taxi vehicle.IDLE [] ∅)))
    by (vm_compute; reflexivity).
  split; [exact H |].
  apply (serving_trip_leaves_no_passengers traveller_id traveller_destination
           (fun l : string => l)
           (taxi vehicle.SERVICING_TRIP []
              {[ "p1" := ("p1", "here", Some "v001") ]})
           (taxi vehicle.IDLE [] ∅)).
  - reflexivity.
  - exact H.
Defined.

(** Witness for X22, with the same vehicle. *)
Lemma serving_trip_drops_everyone_off_witness :
  exists w,
    _case_serving_trip traveller_id traveller_destination
      (fun l : string => l)
      (taxi vehicle.SERVICING_TRIP []
         {[ "p1" := ("p1", "here", Some "v001") ]})
    = Ok (Some w) /\
    vehicle.vehicle_state w = vehicle.IDLE /\
    vehicle.passengers w = ∅ /\
    vehicle.id w = "v001".
Proof.
  apply (serving_trip_drops_everyone_off traveller_id traveller_destination
           (fun l : string => l)
           (taxi vehicle.SERVICING_TRIP []
              {[ "p1" := ("p1", "here", Some "v001") ]})).
  - reflexivity.
  - intros k p Hk. cbn in Hk. apply lookup_singleton_Some in Hk.
    destruct Hk as [<- <-]. split; reflexivity.
  - discriminate.
Defined.

End simulationstateops_facts.

(** ** What the matching returns *)

Module dispatcher_matching_facts.

Import dispatcher dispatcher_facts.

Lemma nodup_firstn {A : Type} (n : nat) (l : list A) :
  List.NoDup l -> List.NoDup (firstn n l).
Proof.
  revert l. induction n as [| n IH]; intros [| a l] Hl; cbn;
    try constructor.
  - apply List.NoDup_cons_iff in Hl. destruct Hl as [Ha Hl].
    intros Hin. apply Ha. apply (in_firstn a n l). exact Hin.
  - apply IH. apply List.NoDup_cons_iff in Hl. tauto.
Qed.

Lemma mask_at_map {A : Type} (f : A -> bool) (rows : list A) (i : nat) :
  mask_at (map f rows) i = true ->
  exists row, nth_error rows i = Some row /\ f row = true.
Proof.
  unfold mask_at. revert i.
  induction rows as [| r rows IH]; intros [| i] H; cbn in H;
    try discriminate.
  - exists r. split; [reflexivity | exact H].
  - apply IH, H.
Qed.

Lemma mask_at_map_row {A : Type} (f : A -> bool) (rows : list A) (i : nat)
    (row : A) :
  nth_error rows i = Some row -> mask_at (map f rows) i = f row.
Proof.
  unfold mask_at. revert i.
  induction rows as [| r rows IH]; intros [| i] H; cbn in H;
    try discriminate.
  - inversion H. reflexivity.
  - cbn. apply IH, H.
Qed.

Lemma mask_at_and_true (a b : list bool) (i : nat) :
  length a = length b ->
  mask_at a i = true -> mask_at b i = true ->
  mask_at (mask_and a b) i = true.
Proof.
  unfold mask_at. revert b i.
  induction a as [| p a IH]; intros [| q b] [| i] Hlen Ha Hb; cbn in *;
    try discriminate.
  - rewrite Ha, Hb. reflexivity.
  - apply IH; [lia | exact Ha | exact Hb].
Qed.

Lemma length_mask_and (a b : list bool) :
  length a = length b -> length (mask_and a b) = length a.
Proof.
  revert b. induction a as [| p a IH]; intros [| q b] Hlen; cbn in *;
    try discriminate; try reflexivity.
  f_equal. apply IH. lia.
Qed.

Section Argsort.

Variable num : Type.
Variable ltb : num -> num -> bool.

Lemma argsort_insert_perm (d : num) (i : nat) (sorted : list (num * nat)) :
  Permutation (argsort_insert ltb d i sorted) ((d, i) :: sorted).
Proof.
  induction sorted as [| [e j] rest IH]; cbn.
  - apply Permutation_refl.
  - destruct (ltb d e); [apply Permutation_refl |].
    eapply perm_trans; [apply perm_skip, IH | apply perm_swap].
Qed.

Lemma argsort_from_perm (ds : list num) :
  forall i,
  Permutation (map snd (argsort_from ltb i ds)) (seq i (length ds)).
Proof.
  induction ds as [| d ds IH]; intros i; cbn.
  - apply Permutation_refl.
  - eapply perm_trans.
    + apply Permutation_map, argsort_insert_perm.
    + cbn. apply perm_skip, IH.
Qed.

Lemma argsort_perm (ds : list num) :
  Permutation (argsort ltb ds) (seq 0 (length ds)).
Proof. apply argsort_from_perm. Qed.

Lemma in_argsort (ds : list num) (i : nat) :
  In i (argsort ltb ds) <-> (i < length ds)%nat.
Proof.
  split.
  - intros H. apply (Permutation_in _ (argsort_perm ds)) in H.
    apply in_seq in H. lia.
  - intros H. apply (Permutation_in _ (Permutation_sym (argsort_perm ds))).
    apply in_seq. lia.
Qed.

Lemma nodup_argsort (ds : list num) : List.NoDup (argsort ltb ds).
Proof.
  apply (Permutation_NoDup (Permutation_sym (argsort_perm ds))).
  apply seq_NoDup.
Qed.

End Argsort.

Section Answer.

Variable num : Type.
Variables (add sub mul div : num -> num -> num).
Variables (ltb gtb geb eqb : num -> num -> bool).
Variable one : num.
Variable KILOMETERS_TO_MILES : num.
Variable haversine : num -> num -> num * num -> num.

Abbreviation best :=
  (_get_n_best_vehicles add sub mul div ltb gtb geb eqb one
     KILOMETERS_TO_MILES haversine).
Abbreviation miles := (dispatch_miles mul KILOMETERS_TO_MILES haversine).

Abbreviation eligible :=
  (dispatcher.eligible add sub mul div ltb gtb geb eqb one
     KILOMETERS_TO_MILES haversine).

(** The combined mask. *)
Abbreviation combined ENV fleet_state request :=
  (mask_and
     (mask_and
        (mask_and
           (dist_mask ltb ENV
              (distances mul KILOMETERS_TO_MILES haversine fleet_state
                 request))
           (available_mask eqb one fleet_state))
        (min_soc_mask add sub mul div gtb ENV request fleet_state
           (distances mul KILOMETERS_TO_MILES haversine fleet_state
              request)))
     (avail_seats_mask geb request fleet_state)).

Lemma length_dist_mask ENV fleet_state (request : Request num) :
  length (dist_mask ltb ENV
            (distances mul KILOMETERS_TO_MILES haversine fleet_state request))
  = length fleet_state.
Proof. unfold dist_mask, distances. rewrite !List.length_map. reflexivity. Qed.

Lemma length_available_mask (fleet_state : list (FleetRow num)) :
  length (available_mask eqb one fleet_state) = length fleet_state.
Proof. unfold available_mask. apply List.length_map. Qed.

Lemma length_min_soc_mask ENV fleet_state (request : Request num) :
  length (min_soc_mask add sub mul div gtb ENV request fleet_state
            (distances mul KILOMETERS_TO_MILES haversine fleet_state request))
  = length fleet_state.
Proof.
  unfold min_soc_mask, distances.
  rewrite List.length_map, List.length_combine, List.length_map. lia.
Qed.

Lemma length_avail_seats_mask (request : Request num)
    (fleet_state : list (FleetRow num)) :
  length (avail_seats_mask geb request fleet_state) = length fleet_state.
Proof. unfold avail_seats_mask. apply List.length_map. Qed.

Lemma combined_true ENV fleet_state request i :
  mask_at (combined ENV fleet_state request) i = true <->
  exists row, nth_error fleet_state i = Some row /\ eligible ENV request row.
Proof.
  split.
  - intros H. apply mask_at_and in H. destruct H as [H Hseats].
    apply mask_at_and in H. destruct H as [H Hsoc].
    apply mask_at_and in H. destruct H as [Hdist Havail].
    apply mask_at_map in Havail. destruct Havail as [row [Hrow Havail]].
    exists row. split; [exact Hrow |].
    unfold dist_mask, distances in Hdist. rewrite map_map in Hdist.
    rewrite (mask_at_map_row _ _ _ _ Hrow) in Hdist.
    unfold min_soc_mask, distances in Hsoc.
    rewrite (mask_at_rows _ _ fleet_state i row Hrow) in Hsoc.
    unfold avail_seats_mask in Hseats.
    rewrite (mask_at_map_row _ _ _ _ Hrow) in Hseats.
    repeat split; assumption.
  - intros [row [Hrow [Hdist [Havail [Hsoc Hseats]]]]].
    assert (H1 : length (dist_mask ltb ENV
                           (distances mul KILOMETERS_TO_MILES haversine
                              fleet_state request))
                 = length (available_mask eqb one fleet_state)).
    { rewrite length_dist_mask, length_available_mask. reflexivity. }
    assert (H2 : length (mask_and
                           (dist_mask ltb ENV
                              (distances mul KILOMETERS_TO_MILES haversine
                                 fleet_state request))
                           (available_mask eqb one fleet_state))
                 = length fleet_state).
    { rewrite (length_mask_and _ _ H1). apply length_dist_mask. }
    apply mask_at_and_true.
    + rewrite length_mask_and, H2, ?length_avail_seats_mask;
        [reflexivity | rewrite H2, length_min_soc_mask; reflexivity].
    + apply mask_at_and_true.
      * rewrite H2, length_min_soc_mask. reflexivity.
      * apply mask_at_and_true.
        -- exact H1.
        -- unfold dist_mask, distances. rewrite map_map.
           rewrite (mask_at_map_row _ _ _ _ Hrow). exact Hdist.
        -- unfold available_mask. rewrite (mask_at_map_row _ _ _ _ Hrow).
           exact Havail.
      * unfold min_soc_mask, distances.
        rewrite (mask_at_rows _ _ fleet_state i row Hrow). exact Hsoc.
    + unfold avail_seats_mask. rewrite (mask_at_map_row _ _ _ _ Hrow).
      exact Hseats.
Qed.

(** X24. Every vehicle the matching returns is a row of the fleet state
    that lies within the dispatch radius, is available, keeps its soc
    above the minimum over dispatch and trip, and has seats for the
    passengers of the request. *)
Theorem best_vehicles_are_eligible ENV fleet_state request n i :
  In i (_get_n_best_vehicles add sub mul div ltb gtb geb eqb one
     KILOMETERS_TO_MILES haversine ENV fleet_state request n) ->
  exists row, nth_error fleet_state i = Some row /\ eligible ENV request row.
Proof.
  unfold _get_n_best_vehicles. cbn zeta. intros Hin.
  apply in_firstn, filter_In in Hin. destruct Hin as [_ Hmask].
  apply combined_true. exact Hmask.
Qed.

(** X25. The matching returns at most [n] vehicles, and none of them
    twice. *)
Theorem best_vehicles_at_most_n ENV fleet_state request n :
  (length (_get_n_best_vehicles add sub mul div ltb gtb geb eqb one
     KILOMETERS_TO_MILES haversine ENV fleet_state request n) <= n)%nat /\
  List.NoDup (_get_n_best_vehicles add sub mul div ltb gtb geb eqb one
     KILOMETERS_TO_MILES haversine ENV fleet_state request n).
Proof.
  unfold _get_n_best_vehicles. cbn zeta. split.
  - apply firstn_le_length.
  - apply nodup_firstn, List.NoDup_filter, nodup_argsort.
Qed.

(** X26. A request is only left without a vehicle when no vehicle is
    eligible: if some row of the fleet state passes the four tests and at
    least one vehicle is asked for, the answer is not empty. *)
Theorem eligible_vehicle_is_found ENV fleet_state request n i row :
  nth_error fleet_state i = Some row ->
  eligible ENV request row ->
  (0 < n)%nat ->
  _get_n_best_vehicles add sub mul div ltb gtb geb eqb one
    KILOMETERS_TO_MILES haversine ENV fleet_state request n <> [].
Proof.
  intros Hrow Hel Hn. unfold _get_n_best_vehicles. cbn zeta.
  assert (Hin : In i
            (List.filter (mask_at (combined ENV fleet_state request))
               (argsort ltb
                  (distances mul KILOMETERS_TO_MILES haversine fleet_state
                     request)))).
  { apply filter_In. split.
    - apply in_argsort. unfold distances. rewrite length_map.
      apply nth_error_Some. congruence.
    - apply combined_true. exists row. split; assumption. }
  destruct (List.filter _ _) as [| j rest]; [contradiction |].
  destruct n as [| n]; [lia |]. cbn. discriminate.
Qed.

End Answer.

Section NearestFirst.

Variable num : Type.
Variables (add sub mul div : num -> num -> num).
Variables (ltb gtb geb eqb : num -> num -> bool).
Variable one : num.
Variable KILOMETERS_TO_MILES : num.
Variable haversine : num -> num -> num * num -> num.

(** [<] on the distances is a strict order in which incomparable values
    are interchangeable, as on the doubles other than NaN. *)
Hypothesis ltb_asym : forall a b, ltb a b = true -> ltb b a = false.
Hypothesis ltb_not_trans :
  forall a b c, ltb b a = false -> ltb c b = false -> ltb c a = false.

Abbreviation by_distance :=
  (fun p q : num * nat => ltb (fst q) (fst p) = false).

Lemma ltb_irrefl a : ltb a a = false.
Proof.
  destruct (ltb a a) eqn:H; [| reflexivity].
  pose proof (ltb_asym a a H). congruence.
Qed.

Lemma in_argsort_insert d i (sorted : list (num * nat)) x :
  In x (argsort_insert ltb d i sorted) <-> x = (d, i) \/ In x sorted.
Proof.
  split.
  - intros H. apply (Permutation_in _ (argsort_insert_perm num ltb d i sorted))
      in H. destruct H as [H | H]; [left; congruence | right; exact H].
  - intros H.
    apply (Permutation_in _
             (Permutation_sym (argsort_insert_perm num ltb d i sorted))).
    destruct H as [H | H]; [left; congruence | right; exact H].
Qed.

Lemma argsort_insert_sorted d i (sorted : list (num * nat)) :
  StronglySorted by_distance sorted ->
  StronglySorted by_distance (argsort_insert ltb d i sorted).
Proof.
  induction sorted as [| [e j] rest IH]; intros Hs; cbn.
  - constructor; constructor.
  - apply StronglySorted_inv in Hs. destruct Hs as [Hrest Hall].
    destruct (ltb d e) eqn:Hde.
    + constructor.
      * constructor; assumption.
      * constructor; [cbn; apply ltb_asym, Hde |].
        apply List.Forall_forall. intros x Hx.
        apply (proj1 (List.Forall_forall _ _) Hall) in Hx. cbn in *.
        apply (ltb_not_trans d e (fst x)); [apply ltb_asym, Hde | exact Hx].
    + constructor; [apply IH, Hrest |].
      apply List.Forall_forall. intros x Hx.
      apply in_argsort_insert in Hx. destruct Hx as [-> | Hx].
      * cbn. exact Hde.
      * apply (proj1 (List.Forall_forall _ _) Hall), Hx.
Qed.

Lemma argsort_from_sorted (ds : list num) :
  forall i, StronglySorted by_distance (argsort_from ltb i ds).
Proof.
  induction ds as [| d ds IH]; intros i; cbn.
  - constructor.
  - apply argsort_insert_sorted, IH.
Qed.

Lemma argsort_from_entries (ds : list num) :
  forall i d j,
  In (d, j) (argsort_from ltb i ds) ->
  (i <= j)%nat /\ nth_error ds (j - i) = Some d.
Proof.
  induction ds as [| d0 ds IH]; intros i d j Hin; cbn in Hin;
    [contradiction |].
  apply in_argsort_insert in Hin. destruct Hin as [Heq | Hin].
  - inversion Heq; subst. split; [lia |]. rewrite Nat.sub_diag. reflexivity.
  - apply IH in Hin. destruct Hin as [Hle Hnth]. split; [lia |].
    replace (j - i)%nat with (S (j - S i)) by lia. exact Hnth.
Qed.

Lemma sorted_filter (f : num * nat -> bool) (l : list (num * nat)) :
  StronglySorted by_distance l ->
  StronglySorted by_distance (List.filter f l).
Proof.
  induction l as [| x l IH]; intros Hs; cbn; [constructor |].
  apply StronglySorted_inv in Hs. destruct Hs as [Hl Hall].
  destruct (f x); [| apply IH, Hl].
  constructor; [apply IH, Hl |].
  apply List.Forall_forall. intros y Hy. apply filter_In in Hy.
  apply (proj1 (List.Forall_forall _ _) Hall), Hy.
Qed.

Lemma filter_map_snd (m : nat -> bool) (l : list (num * nat)) :
  List.filter m (map snd l) =
  map snd (List.filter (fun p => m (snd p)) l).
Proof.
  induction l as [| x l IH]; cbn; [reflexivity |].
  destruct (m (snd x)); cbn; rewrite IH; reflexivity.
Qed.

(** X27. The first vehicle the matching returns is a nearest eligible
    one: no row that passes the four tests has a strictly shorter dispatch
    leg. *)
Theorem first_vehicle_is_nearest_eligible ENV fleet_state request n j rest
    row_j i row_i :
  _get_n_best_vehicles add sub mul div ltb gtb geb eqb one
    KILOMETERS_TO_MILES haversine ENV fleet_state request n = j :: rest ->
  nth_error fleet_state j = Some row_j ->
  nth_error fleet_state i = Some row_i ->
  eligible add sub mul div ltb gtb geb eqb one KILOMETERS_TO_MILES haversine
    ENV request row_i ->
  ltb (dispatch_miles mul KILOMETERS_TO_MILES haversine request row_i)
    (dispatch_miles mul KILOMETERS_TO_MILES haversine request row_j) = false.
Proof.
  intros Hbest Hj Hi Hel. unfold _get_n_best_vehicles in Hbest.
  cbn zeta in Hbest. unfold argsort in Hbest.
  rewrite filter_map_snd in Hbest.
  set (dist := distances mul KILOMETERS_TO_MILES haversine fleet_state
                 request) in *.
  set (m := mask_at _) in Hbest.
  pose proof (sorted_filter (fun p => m (snd p)) _
                (argsort_from_sorted dist 0)) as Hsorted.
  assert (Hdist : forall k row, nth_error fleet_state k = Some row ->
                    nth_error dist k =
                    Some (dispatch_miles mul KILOMETERS_TO_MILES haversine
                            request row)).
  { intros k row Hk. unfold dist, distances. rewrite nth_error_map, Hk.
    reflexivity. }
  assert (Hin : In (dispatch_miles mul KILOMETERS_TO_MILES haversine
                      request row_i, i)
                  (List.filter (fun p => m (snd p)) (argsort_from ltb 0 dist))).
  { apply filter_In. split.
    - assert (Hi' : In i (argsort ltb dist)).
      { apply in_argsort. unfold dist, distances. rewrite List.length_map.
        apply nth_error_Some. congruence. }
      unfold argsort in Hi'. apply in_map_iff in Hi'.
      destruct Hi' as [[d k] [Hk Hp]]. cbn in Hk. subst k.
      pose proof (argsort_from_entries dist 0 d i Hp) as [_ Hd].
      rewrite Nat.sub_0_r, (Hdist i row_i Hi) in Hd.
      injection Hd as Hd. rewrite Hd. exact Hp.
    - cbn. unfold m.
      apply (combined_true num add sub mul div ltb gtb geb eqb one
               KILOMETERS_TO_MILES haversine).
      exists row_i. split; assumption. }
  destruct (List.filter (fun p => m (snd p)) (argsort_from ltb 0 dist))
    as [| [dj j'] F] eqn:HF; [contradiction |].
  destruct n as [| n]; [discriminate |]. cbn in Hbest.
  injection Hbest as Hj' _. subst j'.
  assert (Hdj : dj = dispatch_miles mul KILOMETERS_TO_MILES haversine
                       request row_j).
  { assert (Hp : In (dj, j) (argsort_from ltb 0 dist)).
    { assert (H' : In (dj, j)
                     (List.filter (fun p => m (snd p))
                        (argsort_from ltb 0 dist)))
        by (rewrite HF; left; reflexivity).
      apply filter_In in H'. tauto. }
    pose proof (argsort_from_entries dist 0 dj j Hp) as [_ Hd].
    rewrite Nat.sub_0_r, (Hdist j row_j Hj) in Hd. congruence. }
  subst dj. destruct Hin as [Heq | Hin].
  - inversion Heq as [[Hd Hij]]. rewrite Hd. apply ltb_irrefl.
  - apply StronglySorted_inv in Hsorted. destruct Hsorted as [_ Hall].
    apply (proj1 (List.Forall_forall _ _) Hall) in Hin. exact Hin.
Qed.

End NearestFirst.

Lemma Qltb_asym (a b : Q) : Qltb a b = true -> Qltb b a = false.
Proof.
  unfold Qltb. rewrite negb_true_iff, negb_false_iff.
  intros H. apply Qle_bool_iff.
  destruct (Qlt_le_dec b a) as [Hlt | Hle]; [| exact Hle].
  apply Qlt_le_weak in Hlt. apply Qle_bool_iff in Hlt. congruence.
Qed.

Lemma Qltb_not_trans (a b c : Q) :
  Qltb b a = false -> Qltb c b = false -> Qltb c a = false.
Proof.
  unfold Qltb. rewrite !negb_false_iff, !Qle_bool_iff.
  intros H1 H2. eapply Qle_trans; eassumption.
Qed.

(** Witness for X24: the vehicle returned in scenario S5. *)
Lemma best_vehicles_are_eligible_witness :
  In 1%nat (best_vehicles_Q s5_env s5_fleet s5_request 1) /\
  exists row,
    nth_error s5_fleet 1 = Some row /\ eligible_Q s5_env s5_request row.
Proof.
  assert (H : In 1%nat (best_vehicles_Q s5_env s5_fleet s5_request 1))
    by (vm_compute; left; reflexivity).
  split; [exact H |].
  exact (best_vehicles_are_eligible Q Qplus Qminus Qmult Qdiv Qltb Qgtb Qgeb
           Qeq_bool 1%Q 1%Q city_block s5_env s5_fleet s5_request 1 1 H).
Defined.

(** Witness for X26: vehicle 1 of scenario S5 is eligible. *)
Lemma eligible_vehicle_is_found_witness :
  eligible_Q s5_env s5_request
    (mkFleetRow 4%Q 0%Q 1%Q 1%Q (90 # 100) 0%Q 4%Q (3 # 10) 50%Q) /\
  best_vehicles_Q s5_env s5_fleet s5_request 1 <> [].
Proof.
  assert (H : eligible_Q s5_env s5_request
                (mkFleetRow 4%Q 0%Q 1%Q 1%Q (90 # 100) 0%Q 4%Q (3 # 10) 50%Q))
    by (repeat split; vm_compute; reflexivity).
  split; [exact H |].
  apply (eligible_vehicle_is_found Q Qplus Qminus Qmult Qdiv Qltb Qgtb Qgeb
           Qeq_bool 1%Q 1%Q city_block s5_env s5_fleet s5_request 1 1
           (mkFleetRow 4%Q 0%Q 1%Q 1%Q (90 # 100) 0%Q 4%Q (3 # 10) 50%Q)).
  - reflexivity.
  - exact H.
  - lia.
Defined.

(** Witness for X27: of two charged vehicles the one at two miles is
    returned; the one at four miles is eligible and not nearer. *)
Lemma first_vehicle_is_nearest_eligible_witness :
  best_vehicles_Q s5_env charged_fleet s5_request 1 = [1%nat] /\
  Qltb 4 2 = false.
Proof.
  assert (H : best_vehicles_Q s5_env charged_fleet s5_request 1 = [1%nat])
    by (vm_compute; reflexivity).
  split; [exact H |].
  change (Qltb 4 2) with
    (Qltb
       (dispatch_miles Qmult 1%Q city_block s5_request
          (mkFleetRow 4%Q 0%Q 1%Q 1%Q (90 # 100) 0%Q 4%Q (3 # 10) 50%Q))
       (dispatch_miles Qmult 1%Q city_block s5_request
          (mkFleetRow 2%Q 0%Q 1%Q 1%Q (80 # 100) 0%Q 4%Q (3 # 10) 50%Q))).
  apply (first_vehicle_is_nearest_eligible Q Qplus Qminus Qmult Qdiv Qltb
           Qgtb Qgeb Qeq_bool 1%Q 1%Q city_block Qltb_asym Qltb_not_trans
           s5_env charged_fleet s5_request 1 1 [] _ 0).
  - exact H.
  - reflexivity.
  - reflexivity.
  - repeat split; vm_compute; reflexivity.
Defined.

End dispatcher_matching_facts.

(** ** The search for the closest plug *)

Module dispatcher_plugs_facts.

Import dispatcher_plugs.

Section Search.

Variable num : Type.
Variable ltb : num -> num -> bool.
Variable INF : num.
Variable estimate_vmt_latlon : num -> num -> num -> num -> num -> num.

Implicit Types v : Vehicle num.
Implicit Types s t nearest : FuelStation num.
Implicit Types l : list (FuelStation num).

Abbreviation dist := (dist_mi estimate_vmt_latlon).
Abbreviation look :=
  (fun v (acc : num * option (FuelStation num)) (station : FuelStation num) =>
     if ltb (dist v station) (fst acc) then (dist v station, Some station)
     else acc).
Abbreviation search := (recursive_search ltb INF estimate_vmt_latlon).

Lemma look_in v l :
  forall acc s,
  snd (fold_left (look v) l acc) = Some s -> snd acc = Some s \/ In s l.
Proof.
  induction l as [| a l IH]; intros acc s H; [left; exact H |].
  cbn [fold_left] in H. apply IH in H. destruct H as [H | H].
  - destruct (ltb (dist v a) (fst acc)); cbn in H.
    + right. left. congruence.
    + left. exact H.
  - right. right. exact H.
Qed.

Lemma scan_in v l s :
  snd (scan ltb INF estimate_vmt_latlon v l) = Some s -> In s l.
Proof.
  intros H. apply look_in in H. destruct H as [H | H];
    [discriminate | exact H].
Qed.

Lemma look_keeps_some v l :
  forall acc, is_Some (snd acc) -> is_Some (snd (fold_left (look v) l acc)).
Proof.
  induction l as [| a l IH]; intros acc H; [exact H |].
  cbn [fold_left]. apply IH.
  destruct (ltb (dist v a) (fst acc)); [eexists; reflexivity | exact H].
Qed.

(** Within reach: nearer than INF. *)
Abbreviation in_reach v := (fun s => ltb (dist v s) INF = true).

Lemma scan_finds v l :
  l <> [] -> Forall (in_reach v) l ->
  is_Some (snd (scan ltb INF estimate_vmt_latlon v l)).
Proof.
  intros Hne Hall. destruct l as [| a l]; [contradiction |].
  inversion Hall as [| ? ? Ha _]; subst. unfold scan. cbn [fold_left].
  apply look_keeps_some. cbn [fst]. rewrite Ha. eexists; reflexivity.
Qed.

Lemma without_in nearest l s :
  In s (without nearest l) <-> In s l /\ ID s <> ID nearest.
Proof.
  unfold without. rewrite filter_In, negb_true_iff, Z.eqb_neq. reflexivity.
Qed.

Lemma without_shorter nearest l :
  In nearest l -> (length (without nearest l) < length l)%nat.
Proof.
  unfold without. induction l as [| a l IH]; intros Hin; [contradiction |].
  cbn. destruct (ID a =? ID nearest) eqn:Hid; cbn.
  - pose proof (List.filter_length_le
                  (fun s => negb (ID s =? ID nearest)) l). lia.
  - destruct Hin as [-> | Hin]; [rewrite Z.eqb_refl in Hid; discriminate |].
    apply IH in Hin. lia.
Qed.

Lemma search_sound v :
  forall fuel l,
  (length l < fuel)%nat ->
  search fuel v l <> OutOfFuel /\
  forall s, search fuel v l = Found s -> In s l /\ 1 <= avail_plugs s.
Proof.
  induction fuel as [| fuel IH]; intros l Hfuel; [lia |].
  cbn [recursive_search].
  destruct (Z.of_nat (length l) <? 1); [split; [discriminate | discriminate] |].
  destruct (snd (scan ltb INF estimate_vmt_latlon v l)) as [nearest |] eqn:Hscan;
    [| split; discriminate].
  apply scan_in in Hscan.
  destruct (avail_plugs nearest <? 1) eqn:Hplugs.
  - pose proof (without_shorter nearest l Hscan) as Hshort.
    destruct (IH (without nearest l)) as [Hfuel' Hfound]; [lia |].
    split; [exact Hfuel' |]. intros s Hs. apply Hfound in Hs.
    destruct Hs as [Hin Hp]. apply without_in in Hin. tauto.
  - split; [discriminate |]. intros s Hs. inversion Hs; subst.
    apply Z.ltb_ge in Hplugs. tauto.
Qed.

(** X28. The search of [_find_closest_plug] comes to an end within the
    rounds the model grants it, and a station it returns is one of the
    network asked for and has at least one plug available. *)
Theorem closest_plug_is_sound stations bases v type :
  _find_closest_plug ltb INF estimate_vmt_latlon stations bases v type
    <> OutOfFuel /\
  forall s,
    _find_closest_plug ltb INF estimate_vmt_latlon stations bases v type
      = Found s ->
    ((type = "station"%string /\ In s stations) \/
     (type = "base"%string /\ In s bases)) /\
    1 <= avail_plugs s.
Proof.
  unfold _find_closest_plug.
  destruct (String.eqb_spec type "station") as [-> | _].
  - destruct (search_sound v (S (length stations)) stations) as [H1 H2];
      [lia |].
    split; [exact H1 |]. intros s Hs. apply H2 in Hs. tauto.
  - destruct (String.eqb_spec type "base") as [-> | _].
    + destruct (search_sound v (S (length bases)) bases) as [H1 H2]; [lia |].
      split; [exact H1 |]. intros s Hs. apply H2 in Hs. tauto.
    + split; discriminate.
Qed.

Lemma search_none v :
  forall fuel l,
  (length l < fuel)%nat ->
  Forall (in_reach v) l ->
  Forall (fun s => avail_plugs s < 1) l ->
  search fuel v l = NotImplementedError.
Proof.
  induction fuel as [| fuel IH]; intros l Hfuel Hreach Hnone; [lia |].
  cbn [recursive_search]. destruct l as [| a l]; [reflexivity |].
  replace (Z.of_nat (length (a :: l)) <? 1) with false
    by (symmetry; apply Z.ltb_ge; cbn [length]; lia).
  destruct (scan_finds v (a :: l)) as [nearest Hscan];
    [discriminate | exact Hreach |].
  rewrite Hscan. pose proof (scan_in _ _ _ Hscan) as Hin.
  pose proof (proj1 (List.Forall_forall _ _) Hnone nearest Hin) as Hp.
  cbn beta in Hp. apply Z.ltb_lt in Hp. rewrite Hp.
  apply IH.
  - pose proof (without_shorter nearest (a :: l) Hin). lia.
  - apply List.Forall_forall. intros s Hs. apply without_in in Hs.
    apply (proj1 (List.Forall_forall _ _) Hreach), Hs.
  - apply List.Forall_forall. intros s Hs. apply without_in in Hs.
    apply (proj1 (List.Forall_forall _ _) Hnone), Hs.
Qed.

(** X29. When every station is nearer than INF and none has a plug
    available, the search for a station raises NotImplementedError. *)
Theorem no_free_plug_is_reported stations bases v :
  Forall (in_reach v) stations ->
  Forall (fun s => avail_plugs s < 1) stations ->
  _find_closest_plug ltb INF estimate_vmt_latlon stations bases v "station"
  = NotImplementedError.
Proof.
  intros Hreach Hnone. unfold _find_closest_plug.
  rewrite String.eqb_refl. apply search_none; [lia | exact Hreach | exact Hnone].
Qed.

End Search.

Section Nearest.

Variable num : Type.
Variable ltb : num -> num -> bool.
Variable INF : num.
Variable estimate_vmt_latlon : num -> num -> num -> num -> num -> num.

(** [<] on the distances is a strict order in which incomparable values
    are interchangeable, as on the doubles other than NaN. *)
Hypothesis ltb_asym : forall a b, ltb a b = true -> ltb b a = false.
Hypothesis ltb_not_trans :
  forall a b c, ltb b a = false -> ltb c b = false -> ltb c a = false.

Implicit Types v : Vehicle num.
Implicit Types s t nearest : FuelStation num.
Implicit Types l : list (FuelStation num).

Lemma look_least v l :
  forall seen acc,
  (forall s, In s seen -> ltb (dist_mi estimate_vmt_latlon v s) (fst acc)
                          = false) ->
  (forall n, snd acc = Some n -> fst acc = dist_mi estimate_vmt_latlon v n) ->
  let r :=
    fold_left
      (fun (acc : num * option (FuelStation num)) station =>
         if ltb (dist_mi estimate_vmt_latlon v station) (fst acc)
         then (dist_mi estimate_vmt_latlon v station, Some station)
         else acc) l acc in
  (forall s, In s seen \/ In s l ->
             ltb (dist_mi estimate_vmt_latlon v s) (fst r) = false) /\
  (forall n, snd r = Some n -> fst r = dist_mi estimate_vmt_latlon v n).
Proof.
  induction l as [| a l IH]; intros seen acc Hseen Hacc; cbn zeta.
  - cbn. split; [| exact Hacc]. intros s [Hs | []]. apply Hseen, Hs.
  - cbn [fold_left].
    destruct (ltb (dist_mi estimate_vmt_latlon v a) (fst acc)) eqn:Hlt.
    + destruct (IH (a :: seen) (dist_mi estimate_vmt_latlon v a, Some a))
        as [H1 H2].
      * intros s [<- | Hs]; cbn [fst].
        -- destruct (ltb (dist_mi estimate_vmt_latlon v a)
                       (dist_mi estimate_vmt_latlon v a)) eqn:Hirr;
             [| reflexivity].
           pose proof (ltb_asym _ _ Hirr). congruence.
        -- apply (ltb_not_trans _ (fst acc)).
           ++ apply ltb_asym, Hlt.
           ++ apply Hseen, Hs.
      * intros n Hn. cbn in Hn. inversion Hn. reflexivity.
      * split; [| exact H2]. intros s Hs. apply H1.
        cbn [In] in Hs |- *. tauto.
    + destruct (IH (a :: seen) acc) as [H1 H2].
      * intros s [<- | Hs]; [exact Hlt | apply Hseen, Hs].
      * exact Hacc.
      * split; [| exact H2]. intros s Hs. apply H1.
        cbn [In] in Hs |- *. tauto.
Qed.

Lemma scan_least v l nearest :
  snd (scan ltb INF estimate_vmt_latlon v l) = Some nearest ->
  forall s, In s l ->
  ltb (dist_mi estimate_vmt_latlon v s) (dist_mi estimate_vmt_latlon v nearest)
  = false.
Proof.
  intros Hscan s Hs. unfold scan in Hscan.
  destruct (look_least v l [] (INF, None)) as [H1 H2].
  - intros ? [].
  - discriminate.
  - cbn zeta in H1, H2. rewrite <- (H2 nearest Hscan). apply H1. right.
    exact Hs.
Qed.

Lemma search_nearest v t :
  1 <= avail_plugs t ->
  forall fuel l,
  (length l < fuel)%nat ->
  In t l ->
  Forall (fun s => ltb (dist_mi estimate_vmt_latlon v s) INF = true) l ->
  (forall s, In s l -> avail_plugs s < 1 -> ID s <> ID t) ->
  exists s,
    recursive_search ltb INF estimate_vmt_latlon fuel v l = Found s /\
    ltb (dist_mi estimate_vmt_latlon v t) (dist_mi estimate_vmt_latlon v s)
    = false.
Proof.
  intros Ht. induction fuel as [| fuel IH]; intros l Hfuel Hin Hreach Hids;
    [lia |].
  cbn [recursive_search]. destruct l as [| a l]; [contradiction |].
  replace (Z.of_nat (length (a :: l)) <? 1) with false
    by (symmetry; apply Z.ltb_ge; cbn [length]; lia).
  destruct (dispatcher_plugs_facts.scan_finds num ltb INF estimate_vmt_latlon
              v (a :: l)) as [nearest Hscan];
    [discriminate | exact Hreach |].
  rewrite Hscan.
  pose proof (dispatcher_plugs_facts.scan_in _ _ _ _ _ _ _ Hscan) as Hn.
  destruct (avail_plugs nearest <? 1) eqn:Hplugs.
  - apply Z.ltb_lt in Hplugs. apply IH.
    + pose proof (dispatcher_plugs_facts.without_shorter num nearest (a :: l)
                    Hn). lia.
    + apply dispatcher_plugs_facts.without_in. split; [exact Hin |].
      intros Heq. apply (Hids nearest Hn Hplugs). symmetry. exact Heq.
    + apply List.Forall_forall. intros s Hs.
      apply dispatcher_plugs_facts.without_in in Hs.
      apply (proj1 (List.Forall_forall _ _) Hreach), Hs.
    + intros s Hs. apply dispatcher_plugs_facts.without_in in Hs.
      apply Hids, Hs.
  - exists nearest. split; [reflexivity |].
    apply (scan_least v (a :: l) nearest Hscan t Hin).
Qed.

(** X30. When every station is nearer than INF and a station with a plug
    available does not share its ID with a station that has none, the
    search returns a station, and that station is at least as near as any
    such station with a plug. *)
Theorem closest_plug_is_nearest_free stations bases v t :
  In t stations ->
  1 <= avail_plugs t ->
  Forall (fun s => ltb (dist_mi estimate_vmt_latlon v s) INF = true)
    stations ->
  (forall s, In s stations -> avail_plugs s < 1 -> ID s <> ID t) ->
  exists s,
    _find_closest_plug ltb INF estimate_vmt_latlon stations bases v "station"
      = Found s /\
    ltb (dist_mi estimate_vmt_latlon v t) (dist_mi estimate_vmt_latlon v s)
    = false.
Proof.
  intros Hin Ht Hreach Hids. unfold _find_closest_plug.
  rewrite String.eqb_refl.
  apply (search_nearest v t Ht); [lia | exact Hin | exact Hreach | exact Hids].
Qed.

End Nearest.

(** Witness for X29: the nearest station alone, which has no plug. *)
Lemma no_free_plug_is_reported_witness :
  find_plug_Q [mkFuelStation 1 1%Q 0%Q 0] [] at_origin "station"
  = NotImplementedError.
Proof.
  apply (no_free_plug_is_reported Q dispatcher.Qltb 1000000000%Q
           scaled_city_block [mkFuelStation 1 1%Q 0%Q 0] [] at_origin).
  - repeat constructor.
  - repeat constructor.
Defined.

(** Witness for X30: station 1 is nearest but has no plug; of the
    stations 2 and 3 the search returns station 3, two miles away. *)
Lemma closest_plug_is_nearest_free_witness :
  find_plug_Q sample_stations [] at_origin "station"
    = Found (mkFuelStation 3 2%Q 0%Q 1) /\
  exists s,
    find_plug_Q sample_stations [] at_origin "station" = Found s /\
    dispatcher.Qltb
      (dist_mi scaled_city_block at_origin (mkFuelStation 2 5%Q 0%Q 3))
      (dist_mi scaled_city_block at_origin s) = false.
Proof.
  split; [vm_compute; reflexivity |].
  apply (closest_plug_is_nearest_free Q dispatcher.Qltb 1000000000%Q
           scaled_city_block dispatcher_matching_facts.Qltb_asym
           dispatcher_matching_facts.Qltb_not_trans sample_stations []
           at_origin (mkFuelStation 2 5%Q 0%Q 3)).
  - right; left; reflexivity.
  - cbn; lia.
  - repeat constructor.
  - intros s [<- | [<- | [<- | []]]] Hp; cbn in *; lia.
Defined.

End dispatcher_plugs_facts.
